(** * Minesweeper: the board, its cells and the cascading reveal

    A shallow embedding of [minesweeper.py].  Python integers are [Z], the
    dictionary [Board._cells] is a [gmap] keyed by coordinates, exceptions
    are the [Raise] branch of [result].  Cell objects live in the dictionary
    of their board, so mutating a cell is storing the changed cell under its
    key.  [BoardDrawer] and the script at the end of the module only print
    and are left out. *)

From Stdlib Require Import ZArith Lia Ascii.
From stdpp Require Import base gmap list strings pretty sorting.

Open Scope Z_scope.

(** ** Exceptions and results *)

Inductive exn : Type :=
| InvalidCellException (msg : string)
| KeyError (key : Z * Z)
| ValueError
| RecursionError.

Inductive result (A : Type) : Type :=
| Ok (a : A)
| Raise (e : exn).

Arguments Ok {A} a.
Arguments Raise {A} e.

#[global] Instance result_ret : MRet result := λ A a, Ok a.
#[global] Instance result_bind : MBind result := λ A B f m,
  match m with
  | Ok a => f a
  | Raise e => Raise e
  end.

(** [d[key]] on a dictionary. *)
Definition dict_get {V : Type} (d : gmap (Z * Z) V) (key : Z * Z) : result V :=
  match d !! key with
  | Some v => Ok v
  | None => Raise (KeyError key)
  end.

(** [range(n)] *)
Definition range (n : Z) : list Z := seqZ 0 n.

(** [str(n)] and the [%s] conversion of an integer. *)
Definition str (n : Z) : string := pretty n.

(** ** Cells *)

Inductive FlagState : Type := Flag | NoFlag.
Inductive ClickState : Type := ClickedState | UnclikedState.

(** The three concrete subclasses of [Cell]; [EmptyPlainCell] has
    [_counter = 0]. *)
Inductive CellClass : Type :=
| PlainCell (_counter : Z)
| EmptyPlainCell
| BombCell.

Record Cell : Type := mkCell {
  cell_class : CellClass;
  _flag : FlagState;
  _clicked : ClickState
}.

#[global] Instance FlagState_eq_dec : EqDecision FlagState.
Proof. solve_decision. Defined.
#[global] Instance ClickState_eq_dec : EqDecision ClickState.
Proof. solve_decision. Defined.
#[global] Instance CellClass_eq_dec : EqDecision CellClass.
Proof. solve_decision. Defined.
#[global] Instance Cell_eq_dec : EqDecision Cell.
Proof. solve_decision. Defined.

(** [Cell.__init__] *)
Definition Cell___init__ (k : CellClass) : Cell :=
  {| cell_class := k; _flag := NoFlag; _clicked := UnclikedState |}.

Definition set_flag (f : FlagState) (a_cell : Cell) : Cell :=
  {| cell_class := cell_class a_cell; _flag := f; _clicked := _clicked a_cell |}.

Definition set_clicked (s : ClickState) (a_cell : Cell) : Cell :=
  {| cell_class := cell_class a_cell; _flag := _flag a_cell; _clicked := s |}.

Definition get_content (a_cell : Cell) : string :=
  match cell_class a_cell with
  | PlainCell counter => str counter
  | EmptyPlainCell => str 0
  | BombCell => "B"
  end.

Definition FlagState_render (f : FlagState) : string :=
  match f with
  | Flag => "F"
  | NoFlag => " "
  end.

Definition ClickState_render (s : ClickState) (a_cell : Cell) : string :=
  match s with
  | ClickedState => get_content a_cell
  | UnclikedState => FlagState_render (_flag a_cell)
  end.

Definition Cell_render (a_cell : Cell) : string :=
  ClickState_render (_clicked a_cell) a_cell.

(** [ClickedState.put_flag] does nothing, [UnclikedState.put_flag] sets the
    flag. *)
Definition ClickState_put_flag (s : ClickState) (a_cell : Cell) : Cell :=
  match s with
  | ClickedState => a_cell
  | UnclikedState => set_flag Flag a_cell
  end.

Definition Cell_put_flag (a_cell : Cell) : Cell :=
  ClickState_put_flag (_clicked a_cell) a_cell.

Definition Cell_remove_flag (a_cell : Cell) : Cell :=
  set_flag NoFlag a_cell.

(** [PlainCellFactory.build_plain_cell]: key [0] of the [defaultdict] builds
    an [EmptyPlainCell], every other key falls to the default
    [PlainCell(x)]. *)
Definition build_plain_cell (counter : Z) : Cell :=
  if decide (counter = 0) then Cell___init__ EmptyPlainCell
  else Cell___init__ (PlainCell counter).

(** ** Bomb placers *)

Record BombPlacerStrategy : Type := {
  get_bomb_positions : Z → Z → Z → result (list (Z * Z))
}.

(** A placer that returns a fixed collection, whatever the dimensions. *)
Definition FixedBombPlacer (positions : list (Z * Z)) : BombPlacerStrategy :=
  {| get_bomb_positions := λ _ _ _, Ok positions |}.

(** [random.sample(population, k)] of the Python library, with the generator
    made explicit: [rng] is the stream of numbers the generator hands out.
    Each draw removes the drawn element from the population, so every list
    of [k] elements at distinct positions is the result for some [rng].  The
    library raises [ValueError] when [k] is negative or exceeds the
    population. *)
Fixpoint sample_draw {A : Type} (rng : list nat) (population : list A) (k : nat)
  : list A :=
  match k with
  | O => []
  | S k' =>
      let i := (hd 0%nat rng `mod` length population)%nat in
      match population !! i with
      | Some x => x :: sample_draw (tl rng) (delete i population) k'
      | None => []
      end
  end.

Definition random_sample {A : Type} (rng : list nat) (population : list A) (k : Z)
  : result (list A) :=
  if bool_decide (0 ≤ k ≤ Z.of_nat (length population))
  then Ok (sample_draw rng population (Z.to_nat k))
  else Raise ValueError.

(** ** Boards *)

Record Board : Type := mkBoard {
  rows : Z;
  columns : Z;
  bombs : Z;
  _cells : gmap (Z * Z) Cell;
  exploded_bomb : option (Z * Z)
}.

Definition set_cells (cells : gmap (Z * Z) Cell) (self : Board) : Board :=
  {| rows := rows self; columns := columns self; bombs := bombs self;
     _cells := cells; exploded_bomb := exploded_bomb self |}.

(** Assignment to an attribute of the cell object stored under [key]. *)
Definition store_cell (key : Z * Z) (a_cell : Cell) (self : Board) : Board :=
  set_cells (<[key := a_cell]> (_cells self)) self.

Definition is_valid_row (self : Board) (row : Z) : bool :=
  bool_decide (0 ≤ row) && bool_decide (row < rows self).

Definition is_valid_column (self : Board) (column : Z) : bool :=
  bool_decide (0 ≤ column) && bool_decide (column < columns self).

Definition row_message (row n : Z) : string :=
  "Row " +:+ str row +:+ " is not in range [0, " +:+ str n +:+ ")".

Definition column_message (column n : Z) : string :=
  "Column " +:+ str column +:+ " is not in range [0, " +:+ str n +:+ ")".

Definition _validate_cell (self : Board) (row column : Z) : result unit :=
  if negb (is_valid_row self row)
  then Raise (InvalidCellException (row_message row (rows self)))
  else if negb (is_valid_column self column)
  then Raise (InvalidCellException (column_message column (columns self)))
  else Ok tt.

(** The order in which Python iterates a [set] built from the given
    (duplicate-free) sequence of insertions.  It depends on hashing and is
    left open: the properties below only assume that it enumerates the
    elements. *)
Class SetIter : Type := set_iter : list (Z * Z) → list (Z * Z).

Section Model.

Context {order : SetIter}.

(** [set(l)], as the sequence its iteration yields. *)
Definition py_set (l : list (Z * Z)) : list (Z * Z) :=
  set_iter (remove_dups l).

Definition RandomBombPlacerStrategy (rng : list nat) : BombPlacerStrategy :=
  {| get_bomb_positions := λ rows columns bombs,
       let positions := x ← range rows; y ← range columns; [(x, y)] in
       sampled ← random_sample rng positions bombs;
       Ok (py_set sampled) |}.

Definition _get_neighbors (self : Board) (row column : Z) : list (Z * Z) :=
  py_set (a_row ← [row - 1; row; row + 1];
          a_column ← [column - 1; column; column + 1];
          if is_valid_row self a_row && is_valid_column self a_column
             && negb (bool_decide ((a_row, a_column) = (row, column)))
          then [(a_row, a_column)] else []).

(** [sum((1 for x in neighbors if x in bomb_cells))] *)
Definition bomb_counter (bomb_cells : gmap (Z * Z) Cell) (neighbors : list (Z * Z))
  : Z :=
  foldr Z.add 0
    ((λ _, 1) <$> filter (λ x, is_Some (bomb_cells !! x)) neighbors).

Definition _place_bombs (self : Board) (bomb_placer : BombPlacerStrategy)
  : result Board :=
  bombs_positions ←
    get_bomb_positions bomb_placer (rows self) (columns self) (bombs self);
  let bomb_cells :=
    foldl (λ d pos, <[pos := Cell___init__ BombCell]> d) ∅ bombs_positions in
  let cells :=
    foldl (λ d row,
      foldl (λ d col,
        let neighbors := _get_neighbors self row col in
        let counter := bomb_counter bomb_cells neighbors in
        <[(row, col) := build_plain_cell counter]> d)
      d (range (columns self)))
    (_cells self) (range (rows self)) in
  Ok {| rows := rows self; columns := columns self; bombs := bombs self;
        _cells := bomb_cells ∪ cells; exploded_bomb := None |}.

Definition Board___init__ (rows columns bombs : Z) (bomb_placer : BombPlacerStrategy)
  : result Board :=
  _place_bombs {| rows := rows; columns := columns; bombs := bombs;
                  _cells := ∅; exploded_bomb := None |} bomb_placer.

(** *** Clicking

    The methods of a cell receive the board and call back [board.click] on
    the neighbours.  Here the callback is the parameter [board_click], and a
    click returns the board together with a log: the coordinates at which
    [UnclikedState.click] ran, that is the cells that went from unclicked to
    clicked, in order.  The log is not in the program; it is there to count
    the transitions. *)

Section CellClick.

Variable board_click : Board → Z → Z → result (Board * list (Z * Z)).

Fixpoint click_neighbors (board : Board) (neighbors : list (Z * Z))
  : result (Board * list (Z * Z)) :=
  match neighbors with
  | [] => Ok (board, [])
  | each :: rest =>
      '(board1, log1) ← board_click board each.1 each.2;
      '(board2, log2) ← click_neighbors board1 rest;
      Ok (board2, log1 ++ log2)
  end.

Definition propagate_click (k : CellClass) (board : Board) (neighbors : list (Z * Z))
  : result (Board * list (Z * Z)) :=
  match k with
  | PlainCell _ => Ok (board, [])
  | EmptyPlainCell => click_neighbors board neighbors
  | BombCell => Ok (board, [])
  end.

Definition ClickState_click (s : ClickState) (key : Z * Z) (a_cell : Cell)
    (board : Board) (neighbors : list (Z * Z)) : result (Board * list (Z * Z)) :=
  match s with
  | ClickedState => Ok (board, [])
  | UnclikedState =>
      let board := store_cell key (set_clicked ClickedState a_cell) board in
      '(board', log) ← propagate_click (cell_class a_cell) board neighbors;
      Ok (board', key :: log)
  end.

Definition FlagState_click (f : FlagState) (key : Z * Z) (a_cell : Cell)
    (board : Board) (neighbors : list (Z * Z)) : result (Board * list (Z * Z)) :=
  match f with
  | Flag => Ok (board, [])
  | NoFlag => ClickState_click (_clicked a_cell) key a_cell board neighbors
  end.

Definition Cell_click (key : Z * Z) (a_cell : Cell) (board : Board)
    (neighbors : list (Z * Z)) : result (Board * list (Z * Z)) :=
  FlagState_click (_flag a_cell) key a_cell board neighbors.

End CellClick.

(** [Board.click] with at most [depth] nested calls of itself; one more
    raises [RecursionError], as the interpreter does at its recursion limit
    (older interpreters report it as a [RuntimeError]). *)
Fixpoint click_at_depth (depth : nat) (self : Board) (row column : Z)
  : result (Board * list (Z * Z)) :=
  match depth with
  | O => Raise RecursionError
  | S depth' =>
      _ ← _validate_cell self row column;
      a_cell ← dict_get (_cells self) (row, column);
      Cell_click (click_at_depth depth') (row, column) a_cell self
        (_get_neighbors self row column)
  end.

(** The number of cells that are still unclicked. *)
Definition hidden_count (self : Board) : nat :=
  size (filter (λ kv, _clicked kv.2 = UnclikedState) (_cells self)).

(** [Board.click] without a limit: [click_depth_enough] below shows that
    every depth above [hidden_count self] gives this result. *)
Definition Board_click (self : Board) (row column : Z)
  : result (Board * list (Z * Z)) :=
  click_at_depth (S (hidden_count self)) self row column.

Definition Board_put_flag (self : Board) (row column : Z) : result Board :=
  _ ← _validate_cell self row column;
  a_cell ← dict_get (_cells self) (row, column);
  Ok (store_cell (row, column) (Cell_put_flag a_cell) self).

Definition Board_remove_flag (self : Board) (row column : Z) : result Board :=
  _ ← _validate_cell self row column;
  a_cell ← dict_get (_cells self) (row, column);
  Ok (store_cell (row, column) (Cell_remove_flag a_cell) self).

(** [Board.__iter__]: the triples the generator yields, in order. *)
Fixpoint yield_cells (self : Board) (keys : list (Z * Z))
  : result (list (Z * Z * Cell)) :=
  match keys with
  | [] => Ok []
  | (row, col) :: rest =>
      a_cell ← dict_get (_cells self) (row, col);
      triples ← yield_cells self rest;
      Ok ((row, col, a_cell) :: triples)
  end.

Definition Board___iter__ (self : Board) : result (list (Z * Z * Cell)) :=
  yield_cells self (row ← range (rows self); col ← range (columns self); [(row, col)]).

(** ** Vocabulary of the properties *)

Definition in_bounds (self : Board) (key : Z * Z) : Prop :=
  (0 ≤ key.1 < rows self) ∧ (0 ≤ key.2 < columns self).

(** Every coordinate of the grid has its cell. *)
Definition board_ok (self : Board) : Prop :=
  ∀ key, in_bounds self key → is_Some (_cells self !! key).

Definition class_at (self : Board) (key : Z * Z) : option CellClass :=
  cell_class <$> _cells self !! key.

(** Hidden and Revealed are the source's unclicked and clicked states. *)
Definition hidden (self : Board) (key : Z * Z) : Prop :=
  _clicked <$> _cells self !! key = Some UnclikedState.

Definition revealed (self : Board) (key : Z * Z) : Prop :=
  _clicked <$> _cells self !! key = Some ClickedState.

Definition flagged (self : Board) (key : Z * Z) : Prop :=
  _flag <$> _cells self !! key = Some Flag.

Definition unflagged (self : Board) (key : Z * Z) : Prop :=
  _flag <$> _cells self !! key = Some NoFlag.

(** The 8-neighbourhood, stated on coordinates alone. *)
Definition adjacent (p q : Z * Z) : Prop :=
  p ≠ q ∧ Z.abs (p.1 - q.1) ≤ 1 ∧ Z.abs (p.2 - q.2) ≤ 1.

#[global] Instance adjacent_dec : RelDecision adjacent.
Proof. intros p q. unfold adjacent. apply _. Defined.

(** The coordinates of the grid, rows ascending and columns ascending within
    a row. *)
Definition grid (self : Board) : list (Z * Z) :=
  row ← range (rows self); col ← range (columns self); [(row, col)].

(** The count of bombs around a coordinate, by a scan of the whole grid. *)
Definition bombs_around (self : Board) (p : Z * Z) : Z :=
  Z.of_nat (length (filter (λ q, adjacent p q ∧ class_at self q = Some BombCell)
                           (grid self))).

(** The number of bomb cells the board owns, and the number met on the
    grid. *)
Definition bomb_cells_count (self : Board) : Z :=
  Z.of_nat (size (filter (λ kv, cell_class kv.2 = BombCell) (_cells self))).

Definition bombs_on_grid (self : Board) : Z :=
  Z.of_nat (length (filter (λ q, class_at self q = Some BombCell) (grid self))).

(** [reach self p q]: [q] is [p], or is met from [p] by steps between
    adjacent cells of the grid that each leave an [EmptyPlainCell].  These
    are the cells of the connected empty region of [p] and the cells around
    it. *)
Inductive reach (self : Board) : Z * Z → Z * Z → Prop :=
| reach_here p : reach self p p
| reach_next p x q :
    class_at self p = Some EmptyPlainCell →
    in_bounds self x → adjacent p x →
    reach self x q → reach self p q.

(** The connected region of empty cells of [p]. *)
Definition in_region (self : Board) (p q : Z * Z) : Prop :=
  reach self p q ∧ class_at self q = Some EmptyPlainCell.

(** [self'] is [self] with the cells of [log] clicked and nothing else
    changed. *)
Record clicked_from (self self' : Board) (log : list (Z * Z)) : Prop := {
  cf_rows : rows self' = rows self;
  cf_columns : columns self' = columns self;
  cf_bombs : bombs self' = bombs self;
  cf_exploded : exploded_bomb self' = exploded_bomb self;
  cf_cells : ∀ key,
    _cells self' !! key =
    if decide (key ∈ log) then set_clicked ClickedState <$> _cells self !! key
    else _cells self !! key
}.

(** What a click, or the loop over the neighbours, has done when it returns
    [self'] and [log] from [self] and the cells [roots] it was called on. *)
Record cascade_ok (self : Board) (roots : list (Z * Z)) (self' : Board)
    (log : list (Z * Z)) : Prop := {
  co_from : clicked_from self self' log;
  co_nodup : NoDup log;
  co_fresh : ∀ q, q ∈ log → in_bounds self q ∧ hidden self q ∧ unflagged self q;
  co_reach : ∀ q, q ∈ log → ∃ x, x ∈ roots ∧ reach self x q;
  co_roots : ∀ x, x ∈ roots → unflagged self x → revealed self' x;
  co_closed : ∀ q x,
    q ∈ log → class_at self q = Some EmptyPlainCell →
    in_bounds self x → adjacent q x → unflagged self x → revealed self' x
}.


(** The calls of a client.  A call that raises leaves the board as it was:
    [_validate_cell] runs before anything is changed. *)
Inductive Op : Type :=
| Reveal (row column : Z)
| PutFlag (row column : Z)
| RemoveFlag (row column : Z).

Definition apply_op (self : Board) (op : Op) : result Board :=
  match op with
  | Reveal row column =>
      '(board, _) ← Board_click self row column; Ok board
  | PutFlag row column => Board_put_flag self row column
  | RemoveFlag row column => Board_remove_flag self row column
  end.

Definition step (self : Board) (op : Op) : Board :=
  match apply_op self op with
  | Ok board => board
  | Raise _ => self
  end.

Definition run_ops (self : Board) (ops : list Op) : Board :=
  foldl step self ops.

(** What one call can do to a board: nothing (it raised, or it was a call
    without effect), a cascade of clicks, or a change of one flag. *)
Inductive step_shape (self : Board) : Board → Prop :=
| shape_same : step_shape self self
| shape_click row column self' log :
    in_bounds self (row, column) →
    cascade_ok self [(row, column)] self' log → step_shape self self'
| shape_put_flag row column a_cell :
    in_bounds self (row, column) →
    _cells self !! (row, column) = Some a_cell →
    step_shape self (store_cell (row, column) (Cell_put_flag a_cell) self)
| shape_remove_flag row column a_cell :
    in_bounds self (row, column) →
    _cells self !! (row, column) = Some a_cell →
    step_shape self (store_cell (row, column) (Cell_remove_flag a_cell) self).

(** Two boards with the same dimensions and the same class of cell at every
    coordinate. *)
Definition same_layout (self self' : Board) : Prop :=
  rows self' = rows self ∧ columns self' = columns self ∧
  bombs self' = bombs self ∧ ∀ key, class_at self' key = class_at self key.

(** Row-major order on coordinates. *)
Definition row_major_lt (p q : Z * Z) : Prop :=
  p.1 < q.1 ∨ (p.1 = q.1 ∧ p.2 < q.2).

(** No cell is both clicked and flagged. *)
Definition clicked_unflagged (self : Board) : Prop :=
  ∀ key a_cell,
    _cells self !! key = Some a_cell →
    _clicked a_cell = ClickedState → _flag a_cell = NoFlag.

(** *** Drawing

    [BoardDrawer.draw] keeps the finished lines in [rows], the row it is
    in in [current_row] and the line it is building in [row_str]; it reads
    each cell again from [board._cells].  [print] is the only effect: the
    model returns the lines, and the text that is printed. *)

Definition newline : string := String (Ascii.ascii_of_nat 10) "".

Definition draw_cell (board : Board) (state : list string * Z * string)
    (triple : Z * Z * Cell) : result (list string * Z * string) :=
  let '(rows, current_row, row_str) := state in
  let '(row, col, _) := triple in
  let '(rows, current_row, row_str) :=
    if decide (current_row ≠ row)
    then (rows ++ [row_str +:+ "|"], row, "")
    else (rows, current_row, row_str) in
  a_cell ← dict_get (_cells board) (row, col);
  let cell_str := "|" +:+ Cell_render a_cell in
  Ok (rows, current_row, row_str +:+ cell_str).

Fixpoint draw_loop (board : Board) (state : list string * Z * string)
    (triples : list (Z * Z * Cell)) : result (list string * Z * string) :=
  match triples with
  | [] => Ok state
  | triple :: rest =>
      state' ← draw_cell board state triple;
      draw_loop board state' rest
  end.

Definition draw_lines (board : Board) : result (list string) :=
  triples ← Board___iter__ board;
  '(rows, _, row_str) ← draw_loop board ([], 0, "") triples;
  Ok (rows ++ [row_str +:+ "|"]).

Definition BoardDrawer_draw (board : Board) : result string :=
  lines ← draw_lines board;
  Ok (String.concat newline lines +:+ newline).

(** *** More vocabulary *)

#[global] Instance in_bounds_dec self key : Decision (in_bounds self key).
Proof. unfold in_bounds. apply _. Defined.

(** The eight coordinates around [p]. *)
Definition eight_around (p : Z * Z) : list (Z * Z) :=
  [(p.1 - 1, p.2 - 1); (p.1 - 1, p.2); (p.1 - 1, p.2 + 1);
   (p.1, p.2 - 1); (p.1, p.2 + 1);
   (p.1 + 1, p.2 - 1); (p.1 + 1, p.2); (p.1 + 1, p.2 + 1)].

(** Every plain cell of the grid carries the number of bombs around it, an
    [EmptyPlainCell] standing for 0. *)
Definition counters_ok (self : Board) : Prop :=
  ∀ key, in_bounds self key →
    (class_at self key = Some EmptyPlainCell → bombs_around self key = 0) ∧
    (∀ n, class_at self key = Some (PlainCell n) →
          n = bombs_around self key ∧ n ≠ 0).

(** What the cell stored under [key] shows. *)
Definition render_at (self : Board) (key : Z * Z) : string :=
  match _cells self !! key with
  | Some a_cell => Cell_render a_cell
  | None => ""
  end.

(** A line of the drawing: a bar before each cell of the row and one at the
    end. *)
Definition row_text (self : Board) (row : Z) : string :=
  foldl (λ s col, s +:+ "|" +:+ render_at self (row, col)) ""
    (range (columns self)) +:+ "|".

Definition is_reveal (op : Op) : Prop :=
  match op with
  | Reveal _ _ => True
  | _ => False
  end.


(** [draw_loop] on coordinates alone: the loop never looks at the cell of a
    triple. *)
Definition draw_keys (board : Board) (state : list string * Z * string)
    (keys : list (Z * Z)) : result (list string * Z * string) :=
  draw_loop board state ((λ key, (key, Cell___init__ BombCell)) <$> keys).


(** Reading a decimal numeral, to say what a message names: the digits by
    Horner's rule, a leading [-] for a negative number. *)
Definition digit_value (c : ascii) : option N :=
  let n := N_of_ascii c in
  if bool_decide (48 ≤ n ≤ 57)%N then Some (n - 48)%N else None.

Fixpoint read_digits (acc : N) (s : string) : option N :=
  match s with
  | "" => Some acc
  | String c s' =>
      match digit_value c with
      | Some d => read_digits (10 * acc + d)%N s'
      | None => None
      end
  end.

Definition read_int (s : string) : option Z :=
  match s with
  | "" => None
  | String c s' =>
      if decide (c = "-"%char)
      then (λ n, - Z.of_N n) <$> read_digits 0 s'
      else Z.of_N <$> read_digits 0 s
  end.


End Model.

(** Iteration in insertion order, for the examples. *)
Definition insertion_order : SetIter := λ l, l.

(** *** Boards for the examples *)

Definition board_of (r : result Board) : Board :=
  match r with
  | Ok board => board
  | Raise _ =>
      {| rows := 0; columns := 0; bombs := 0; _cells := ∅; exploded_bomb := None |}
  end.

(** [Board(3, 3, 1)] with the bomb at [(0, 0)]. *)
Definition example_board : Board :=
  board_of (Board___init__ (order := insertion_order) 3 3 1
              (FixedBombPlacer [(0, 0)])).

(** [Board(1, 1, 0)] after [put_flag(0, 0)]. *)
Definition flagged_board : Board :=
  step (order := insertion_order)
    (board_of (Board___init__ (order := insertion_order) 1 1 0
                 (FixedBombPlacer [])))
    (PutFlag 0 0).

(** [Board(-1, -1, 0)], as the random placer builds it. *)
Definition negative_board : Board :=
  {| rows := -1; columns := -1; bombs := 0; _cells := ∅; exploded_bomb := None |}.


(** [Board(2, 2, 0)], no bomb. *)
Definition clear_board : Board :=
  board_of (Board___init__ (order := insertion_order) 2 2 0 (FixedBombPlacer [])).


(** The example board after [click(1, 1)]: the numbered centre is clicked,
    every other cell is as built. *)
Definition opened_board : Board :=
  step (order := insertion_order) example_board (Reveal 1 1).

(** [Board(1, 3, 0)], no bomb, after [put_flag(0, 0)], [put_flag(0, 2)],
    [click(0, 1)], [remove_flag(0, 0)] and [remove_flag(0, 2)]: the middle
    cell is clicked, the two ends are not, and no flag is left. *)
Definition split_board : Board :=
  run_ops (order := insertion_order)
    (board_of (Board___init__ (order := insertion_order) 1 3 0
                 (FixedBombPlacer [])))
    [PutFlag 0 0; PutFlag 0 2; Reveal 0 1; RemoveFlag 0 0; RemoveFlag 0 2].

(** The example board after [put_flag(1, 1)]: a flag on the numbered
    centre. *)
Definition guarded_board : Board :=
  step (order := insertion_order) example_board (PutFlag 1 1).


(** ** Properties *)

Section Properties.

Context {order : SetIter}.
Hypothesis set_iter_perm : ∀ l, set_iter l ≡ₚ l.

(** ** Validation *)

Lemma is_valid_row_spec self row :
  is_valid_row self row = true ↔ 0 ≤ row < rows self.
Proof.
  unfold is_valid_row.
  rewrite andb_true_iff, !bool_decide_eq_true. lia.
Qed.

Lemma is_valid_column_spec self column :
  is_valid_column self column = true ↔ 0 ≤ column < columns self.
Proof.
  unfold is_valid_column.
  rewrite andb_true_iff, !bool_decide_eq_true. lia.
Qed.

Lemma validate_in_bounds self row column :
  in_bounds self (row, column) → _validate_cell self row column = Ok tt.
Proof.
  intros [Hr Hc]. simpl in *. unfold _validate_cell.
  apply is_valid_row_spec in Hr. apply is_valid_column_spec in Hc.
  by rewrite Hr, Hc.
Qed.

Lemma validate_bad_row self row column :
  ¬ (0 ≤ row < rows self) →
  _validate_cell self row column =
  Raise (InvalidCellException (row_message row (rows self))).
Proof.
  intros Hr. unfold _validate_cell.
  destruct (is_valid_row self row) eqn:E; [|done].
  by apply is_valid_row_spec in E.
Qed.

Lemma validate_bad_column self row column :
  0 ≤ row < rows self → ¬ (0 ≤ column < columns self) →
  _validate_cell self row column =
  Raise (InvalidCellException (column_message column (columns self))).
Proof.
  intros Hr Hc. unfold _validate_cell.
  apply is_valid_row_spec in Hr. rewrite Hr. simpl.
  destruct (is_valid_column self column) eqn:E; [|done].
  by apply is_valid_column_spec in E.
Qed.

Lemma validate_ok_inv self row column u :
  _validate_cell self row column = Ok u → in_bounds self (row, column).
Proof.
  unfold _validate_cell, in_bounds. simpl.
  destruct (is_valid_row self row) eqn:Er; [|done].
  destruct (is_valid_column self column) eqn:Ec; [|done].
  intros _. split; [by apply is_valid_row_spec | by apply is_valid_column_spec].
Qed.

(** ** Sets and neighbours *)

Lemma elem_of_py_set l x : x ∈ py_set l ↔ x ∈ l.
Proof. unfold py_set. by rewrite set_iter_perm, elem_of_remove_dups. Qed.

Lemma NoDup_py_set l : NoDup (py_set l).
Proof. unfold py_set. rewrite set_iter_perm. apply NoDup_remove_dups. Qed.

Lemma elem_of_three (x a b c : Z) : x ∈ [a; b; c] ↔ x = a ∨ x = b ∨ x = c.
Proof. rewrite !elem_of_cons, elem_of_nil. tauto. Qed.

Lemma elem_of_get_neighbors self row column x :
  x ∈ _get_neighbors self row column ↔ in_bounds self x ∧ adjacent (row, column) x.
Proof.
  unfold _get_neighbors. rewrite elem_of_py_set, list_elem_of_bind.
  destruct x as [r c]. unfold in_bounds, adjacent. cbn [fst snd]. split.
  - intros (a_row & Hin & Hrow). apply list_elem_of_bind in Hin.
    destruct Hin as (a_column & Hin & Hcol).
    destruct (is_valid_row self a_row) eqn:Er; [|by apply elem_of_nil in Hin].
    destruct (is_valid_column self a_column) eqn:Ec; [|by apply elem_of_nil in Hin].
    simpl in Hin. case_bool_decide as Hne; [by apply elem_of_nil in Hin|].
    simpl in Hin. apply list_elem_of_singleton in Hin as [= -> ->].
    apply is_valid_row_spec in Er. apply is_valid_column_spec in Ec.
    apply elem_of_three in Hrow. apply elem_of_three in Hcol.
    repeat split; try lia. intros [= -> ->]. by apply Hne.
  - intros ((Hr & Hc) & Hne & Ha & Hb).
    exists r. split.
    + apply list_elem_of_bind. exists c. split.
      * apply is_valid_row_spec in Hr. apply is_valid_column_spec in Hc.
        rewrite Hr, Hc. simpl. rewrite bool_decide_eq_false_2 by congruence.
        simpl. by apply list_elem_of_singleton.
      * apply elem_of_three. lia.
    + apply elem_of_three. lia.
Qed.

(** ** Boards that differ by clicked cells *)

Lemma clicked_from_refl self : clicked_from self self [].
Proof.
  split; try done;
    intros key; by rewrite decide_False by apply not_elem_of_nil.
Qed.

Lemma clicked_from_trans b1 b2 b3 log1 log2 :
  clicked_from b1 b2 log1 → clicked_from b2 b3 log2 →
  clicked_from b1 b3 (log1 ++ log2).
Proof.
  intros H1 H2. split.
  - by rewrite (cf_rows _ _ _ H2), (cf_rows _ _ _ H1).
  - by rewrite (cf_columns _ _ _ H2), (cf_columns _ _ _ H1).
  - by rewrite (cf_bombs _ _ _ H2), (cf_bombs _ _ _ H1).
  - by rewrite (cf_exploded _ _ _ H2), (cf_exploded _ _ _ H1).
  - intros key. rewrite (cf_cells _ _ _ H2), (cf_cells _ _ _ H1).
    destruct (decide (key ∈ log1 ++ log2)) as [Hin|Hin];
      rewrite elem_of_app in Hin;
      destruct (decide (key ∈ log1)), (decide (key ∈ log2)); try tauto;
      by destruct (_cells b1 !! key).
Qed.

Lemma clicked_from_store self key a_cell :
  _cells self !! key = Some a_cell →
  clicked_from self (store_cell key (set_clicked ClickedState a_cell) self) [key].
Proof.
  intros Hc. split; try done. intros q. simpl.
  rewrite lookup_insert. destruct (decide (key = q)) as [->|Hne].
  - rewrite decide_True by apply list_elem_of_here. by rewrite Hc.
  - rewrite decide_False; [done|]. rewrite list_elem_of_singleton. congruence.
Qed.

Section ClickedFrom.

Variables (self self' : Board) (log : list (Z * Z)).
Hypothesis Hfrom : clicked_from self self' log.

Lemma cf_class key : class_at self' key = class_at self key.
Proof.
  unfold class_at. rewrite (cf_cells _ _ _ Hfrom).
  case_decide; by destruct (_cells self !! key).
Qed.

Lemma cf_flag key :
  _flag <$> _cells self' !! key = _flag <$> _cells self !! key.
Proof.
  rewrite (cf_cells _ _ _ Hfrom).
  case_decide; by destruct (_cells self !! key).
Qed.

Lemma cf_unflagged key : unflagged self' key ↔ unflagged self key.
Proof. unfold unflagged. by rewrite cf_flag. Qed.

Lemma cf_in_bounds key : in_bounds self' key ↔ in_bounds self key.
Proof.
  unfold in_bounds.
  by rewrite (cf_rows _ _ _ Hfrom), (cf_columns _ _ _ Hfrom).
Qed.

Lemma cf_board_ok : board_ok self → board_ok self'.
Proof.
  intros Hok key Hin. apply cf_in_bounds in Hin.
  destruct (Hok key Hin) as [c Hc]. rewrite (cf_cells _ _ _ Hfrom), Hc.
  case_decide; by eexists.
Qed.

Lemma cf_revealed key : revealed self key → revealed self' key.
Proof.
  unfold revealed. rewrite (cf_cells _ _ _ Hfrom).
  case_decide; [|done]. by destruct (_cells self !! key).
Qed.

Lemma cf_log_revealed key :
  key ∈ log → is_Some (_cells self !! key) → revealed self' key.
Proof.
  intros Hin [c Hc]. unfold revealed.
  rewrite (cf_cells _ _ _ Hfrom), decide_True, Hc by done. done.
Qed.

Lemma cf_hidden key : hidden self' key → hidden self key ∧ key ∉ log.
Proof.
  unfold hidden. rewrite (cf_cells _ _ _ Hfrom).
  case_decide; [|done]. by destruct (_cells self !! key).
Qed.

Lemma cf_hidden_keep key : hidden self key → key ∉ log → hidden self' key.
Proof.
  unfold hidden. intros Hh Hn.
  by rewrite (cf_cells _ _ _ Hfrom), decide_False.
Qed.

Lemma cf_newly_revealed key :
  hidden self key → revealed self' key → key ∈ log.
Proof.
  intros Hh Hr. destruct (decide (key ∈ log)) as [|Hn]; [done|].
  apply (cf_hidden_keep _ Hh) in Hn. unfold hidden, revealed in *. congruence.
Qed.

Lemma cf_reach p q : reach self' p q ↔ reach self p q.
Proof.
  split; induction 1 as [|p x q Hk Hb Ha _ IH]; try apply reach_here.
  - eapply reach_next; [by rewrite <- cf_class | by apply cf_in_bounds | done..].
  - eapply reach_next; [by rewrite cf_class | by apply cf_in_bounds | done..].
Qed.

Lemma cf_hidden_subseteq :
  filter (λ kv, _clicked kv.2 = UnclikedState) (_cells self')
  ⊆ filter (λ kv, _clicked kv.2 = UnclikedState) (_cells self).
Proof.
  apply map_subseteq_spec. intros key c.
  rewrite !map_lookup_filter_Some. intros [Hc Hu]. split; [|done].
  rewrite (cf_cells _ _ _ Hfrom) in Hc. case_decide; [|done].
  destruct (_cells self !! key); simpl in Hc; [|done].
  injection Hc as <-. simpl in Hu. discriminate.
Qed.

Lemma cf_hidden_count_le : (hidden_count self' ≤ hidden_count self)%nat.
Proof. apply map_subseteq_size, cf_hidden_subseteq. Qed.

Lemma cf_hidden_count_lt key :
  key ∈ log → hidden self key → (hidden_count self' < hidden_count self)%nat.
Proof.
  intros Hin Hh. apply map_subset_size. split; [apply cf_hidden_subseteq|].
  intros Hsub. unfold hidden in Hh.
  destruct (_cells self !! key) as [c|] eqn:Hc; [|done]. simpl in Hh.
  assert (filter (λ kv, _clicked kv.2 = UnclikedState) (_cells self') !! key
          = Some c) as Hf.
  { eapply map_subseteq_spec; [exact Hsub|].
    apply map_lookup_filter_Some. split; [done|]. simpl. congruence. }
  apply map_lookup_filter_Some in Hf as [Hc' _].
  rewrite (cf_cells _ _ _ Hfrom), decide_True, Hc in Hc' by done.
  injection Hc' as Hc'. apply (f_equal _clicked) in Hc'. simpl in Hc'.
  congruence.
Qed.

End ClickedFrom.

(** ** The cascade *)

Lemma cascade_ok_noop self roots :
  (∀ x, x ∈ roots → unflagged self x → revealed self x) →
  cascade_ok self roots self [].
Proof.
  intros Hr. split.
  - apply clicked_from_refl.
  - constructor.
  - intros q Hq. by apply not_elem_of_nil in Hq.
  - intros q Hq. by apply not_elem_of_nil in Hq.
  - done.
  - intros q x Hq. by apply not_elem_of_nil in Hq.
Qed.

Lemma cascade_ok_single self p a_cell :
  _cells self !! p = Some a_cell →
  _flag a_cell = NoFlag → _clicked a_cell = UnclikedState →
  in_bounds self p → cell_class a_cell ≠ EmptyPlainCell →
  cascade_ok self [p] (store_cell p (set_clicked ClickedState a_cell) self) [p].
Proof.
  intros Hc Hf Hu Hb Hk.
  pose proof (clicked_from_store _ _ _ Hc) as Hfrom.
  split.
  - done.
  - apply NoDup_singleton.
  - intros q ->%list_elem_of_singleton.
    unfold hidden, unflagged. rewrite Hc. simpl. by rewrite Hf, Hu.
  - intros q ->%list_elem_of_singleton. exists p.
    split; [apply list_elem_of_here | apply reach_here].
  - intros x ->%list_elem_of_singleton _.
    eapply cf_log_revealed; [done | apply list_elem_of_here | by eexists].
  - intros q x ->%list_elem_of_singleton Hq.
    unfold class_at in Hq. rewrite Hc in Hq. simpl in Hq. congruence.
Qed.

Lemma cascade_ok_cons self x rest b1 log1 b2 log2 :
  cascade_ok self [x] b1 log1 → cascade_ok b1 rest b2 log2 →
  cascade_ok self (x :: rest) b2 (log1 ++ log2).
Proof.
  intros H1 H2.
  pose proof (co_from _ _ _ _ H1) as F1. pose proof (co_from _ _ _ _ H2) as F2.
  split.
  - by eapply clicked_from_trans.
  - apply NoDup_app. split; [apply H1|]. split; [|apply H2].
    intros q Hq1 Hq2.
    destruct (co_fresh _ _ _ _ H2 q Hq2) as (_ & Hh & _).
    apply (cf_hidden _ _ _ F1) in Hh. tauto.
  - intros q [Hq|Hq]%elem_of_app; [by apply H1|].
    destruct (co_fresh _ _ _ _ H2 q Hq) as (Hb & Hh & Hf).
    split; [by apply (cf_in_bounds _ _ _ F1)|].
    split; [by apply (cf_hidden _ _ _ F1) in Hh as [? _]|].
    by apply (cf_unflagged _ _ _ F1).
  - intros q [Hq|Hq]%elem_of_app.
    + destruct (co_reach _ _ _ _ H1 q Hq) as (y & ->%list_elem_of_singleton & Hy).
      exists x. split; [apply list_elem_of_here | done].
    + destruct (co_reach _ _ _ _ H2 q Hq) as (y & Hy & Hr).
      exists y. split; [by apply list_elem_of_further |].
      by apply (cf_reach _ _ _ F1).
  - intros y [->|Hy]%elem_of_cons Hf.
    + apply (cf_revealed _ _ _ F2).
      apply (co_roots _ _ _ _ H1); [apply list_elem_of_here | done].
    + apply (co_roots _ _ _ _ H2); [done|]. by apply (cf_unflagged _ _ _ F1).
  - intros q y [Hq|Hq]%elem_of_app Hk Hb Ha Hf.
    + apply (cf_revealed _ _ _ F2). by eapply (co_closed _ _ _ _ H1).
    + eapply (co_closed _ _ _ _ H2); [done | | | done |].
      * by rewrite (cf_class _ _ _ F1).
      * by apply (cf_in_bounds _ _ _ F1).
      * by apply (cf_unflagged _ _ _ F1).
Qed.

Lemma cascade_ok_empty_cell self p a_cell neighbors b2 log2 :
  _cells self !! p = Some a_cell →
  _flag a_cell = NoFlag → _clicked a_cell = UnclikedState →
  in_bounds self p → cell_class a_cell = EmptyPlainCell →
  (∀ x, x ∈ neighbors ↔ in_bounds self x ∧ adjacent p x) →
  cascade_ok (store_cell p (set_clicked ClickedState a_cell) self)
    neighbors b2 log2 →
  cascade_ok self [p] b2 (p :: log2).
Proof.
  intros Hc Hf Hu Hb Hk Hn H2.
  pose proof (clicked_from_store _ _ _ Hc) as F1.
  pose proof (co_from _ _ _ _ H2) as F2.
  assert (is_Some (_cells self !! p)) as Hsome by by eexists.
  assert (revealed (store_cell p (set_clicked ClickedState a_cell) self) p) as Hp.
  { eapply cf_log_revealed; [done | apply list_elem_of_here | done]. }
  split.
  - exact (clicked_from_trans _ _ _ [p] log2 F1 F2).
  - apply NoDup_cons. split; [|apply H2].
    intros Hq. destruct (co_fresh _ _ _ _ H2 p Hq) as (_ & Hh & _).
    unfold hidden, revealed in *. congruence.
  - intros q [->|Hq]%elem_of_cons.
    + unfold hidden, unflagged. rewrite Hc. simpl. by rewrite Hf, Hu.
    + destruct (co_fresh _ _ _ _ H2 q Hq) as (Hqb & Hh & Hqf).
      split; [by apply (cf_in_bounds _ _ _ F1)|].
      split; [by apply (cf_hidden _ _ _ F1) in Hh as [? _]|].
      by apply (cf_unflagged _ _ _ F1).
  - intros q [->|Hq]%elem_of_cons.
    + exists p. split; [apply list_elem_of_here | apply reach_here].
    + destruct (co_reach _ _ _ _ H2 q Hq) as (y & Hy & Hr).
      exists p. split; [apply list_elem_of_here|].
      apply Hn in Hy as [Hyb Hya].
      eapply reach_next; [| exact Hyb | exact Hya | by apply (cf_reach _ _ _ F1)].
      unfold class_at. rewrite Hc. simpl. by rewrite Hk.
  - intros x ->%list_elem_of_singleton _. by apply (cf_revealed _ _ _ F2).
  - intros q y [->|Hq]%elem_of_cons Hqk Hyb Hya Hyf.
    + apply (co_roots _ _ _ _ H2); [by apply Hn|].
      by apply (cf_unflagged _ _ _ F1).
    + eapply (co_closed _ _ _ _ H2); [done | | | done |].
      * by rewrite (cf_class _ _ _ F1).
      * by apply (cf_in_bounds _ _ _ F1).
      * by apply (cf_unflagged _ _ _ F1).
Qed.

Section Neighbours.

Variable board_click : Board → Z → Z → result (Board * list (Z * Z)).
Variable bound : nat.
Hypothesis board_click_spec : ∀ self row column,
  board_ok self → in_bounds self (row, column) →
  (hidden_count self < bound)%nat →
  ∃ self' log,
    board_click self row column = Ok (self', log) ∧
    cascade_ok self [(row, column)] self' log.

Lemma click_neighbors_spec neighbors : ∀ self,
  board_ok self → (∀ x, x ∈ neighbors → in_bounds self x) →
  (hidden_count self < bound)%nat →
  ∃ self' log,
    click_neighbors board_click self neighbors = Ok (self', log) ∧
    cascade_ok self neighbors self' log.
Proof.
  induction neighbors as [|[r c] rest IH]; intros self Hok Hin Hlt.
  - exists self, []. split; [done|]. apply cascade_ok_noop.
    intros x Hx. by apply not_elem_of_nil in Hx.
  - destruct (board_click_spec self r c) as (b1 & log1 & E1 & P1);
      [done | apply Hin, list_elem_of_here | done |].
    pose proof (co_from _ _ _ _ P1) as F1.
    destruct (IH b1) as (b2 & log2 & E2 & P2).
    + by apply (cf_board_ok _ _ _ F1).
    + intros x Hx. apply (cf_in_bounds _ _ _ F1), Hin.
      by apply list_elem_of_further.
    + pose proof (cf_hidden_count_le _ _ _ F1). lia.
    + exists b2, (log1 ++ log2). split; [|by eapply cascade_ok_cons].
      simpl. rewrite E1. simpl. by rewrite E2.
Qed.

End Neighbours.

Lemma click_at_depth_spec depth : ∀ self row column,
  board_ok self → in_bounds self (row, column) →
  (hidden_count self < depth)%nat →
  ∃ self' log,
    click_at_depth depth self row column = Ok (self', log) ∧
    cascade_ok self [(row, column)] self' log.
Proof.
  induction depth as [|depth IH]; intros self row column Hok Hin Hlt; [lia|].
  destruct (Hok _ Hin) as [a_cell Hc].
  simpl. rewrite validate_in_bounds by done. simpl.
  unfold dict_get. rewrite Hc. simpl.
  unfold Cell_click, FlagState_click, ClickState_click.
  destruct (_flag a_cell) eqn:Ef.
  { exists self, []. split; [done|]. apply cascade_ok_noop.
    intros x ->%list_elem_of_singleton. unfold unflagged.
    rewrite Hc. simpl. congruence. }
  destruct (_clicked a_cell) eqn:Ec.
  { exists self, []. split; [done|]. apply cascade_ok_noop.
    intros x ->%list_elem_of_singleton _. unfold revealed.
    rewrite Hc. simpl. congruence. }
  pose proof (clicked_from_store _ _ _ Hc) as F1.
  destruct (cell_class a_cell) eqn:Ek; simpl.
  - eexists _, _. split; [done|].
    apply cascade_ok_single; try done. congruence.
  - destruct (click_neighbors_spec (click_at_depth depth) depth IH
                (_get_neighbors self row column)
                (store_cell (row, column) (set_clicked ClickedState a_cell) self))
      as (b2 & log2 & E2 & P2).
    + by apply (cf_board_ok _ _ _ F1).
    + intros x Hx. apply (cf_in_bounds _ _ _ F1).
      by apply elem_of_get_neighbors in Hx as [? _].
    + assert (hidden_count
                (store_cell (row, column) (set_clicked ClickedState a_cell) self)
              < hidden_count self)%nat; [|lia].
      eapply cf_hidden_count_lt; [done | apply list_elem_of_here |].
      unfold hidden. rewrite Hc. simpl. congruence.
    + rewrite E2. simpl. eexists _, _. split; [done|].
      eapply cascade_ok_empty_cell; try done.
      intros x. apply elem_of_get_neighbors.
  - eexists _, _. split; [done|].
    apply cascade_ok_single; try done. congruence.
Qed.

(** ** The depth of the recursion *)

Section Deeper.

Variables f g : Board → Z → Z → result (Board * list (Z * Z)).
Hypothesis f_le_g : ∀ self row column out,
  f self row column = Ok out → g self row column = Ok out.

Lemma click_neighbors_deeper neighbors : ∀ board out,
  click_neighbors f board neighbors = Ok out →
  click_neighbors g board neighbors = Ok out.
Proof.
  induction neighbors as [|each rest IH]; intros board out; [done|].
  simpl. destruct (f board each.1 each.2) as [[b1 log1]|] eqn:E1; [|done].
  rewrite (f_le_g _ _ _ _ E1). simpl.
  destruct (click_neighbors f b1 rest) as [[b2 log2]|] eqn:E2; [|done].
  by rewrite (IH _ _ E2).
Qed.

Lemma Cell_click_deeper key a_cell board neighbors out :
  Cell_click f key a_cell board neighbors = Ok out →
  Cell_click g key a_cell board neighbors = Ok out.
Proof.
  unfold Cell_click, FlagState_click, ClickState_click, propagate_click.
  destruct (_flag a_cell), (_clicked a_cell), (cell_class a_cell); try done.
  destruct (click_neighbors f _ neighbors) as [[b2 log2]|] eqn:E2; [|done].
  by rewrite (click_neighbors_deeper _ _ _ E2).
Qed.

End Deeper.

Lemma click_at_depth_deeper d : ∀ d' self row column out,
  (d ≤ d')%nat →
  click_at_depth d self row column = Ok out →
  click_at_depth d' self row column = Ok out.
Proof.
  induction d as [|d IH]; intros d' self row column out Hle; [done|].
  destruct d' as [|d']; [lia|]. simpl.
  destruct (_validate_cell self row column); [|done]. simpl.
  destruct (dict_get (_cells self) (row, column)); [|done]. simpl.
  apply Cell_click_deeper. intros b r c o. apply IH. lia.
Qed.

Lemma Board_click_spec self row column :
  board_ok self → in_bounds self (row, column) →
  ∃ self' log,
    Board_click self row column = Ok (self', log) ∧
    cascade_ok self [(row, column)] self' log.
Proof. intros Hok Hin. apply click_at_depth_spec; [done..|lia]. Qed.

Lemma click_depth_enough self row column depth :
  board_ok self → (hidden_count self < depth)%nat →
  click_at_depth depth self row column = Board_click self row column.
Proof.
  intros Hok Hlt. unfold Board_click.
  destruct (_validate_cell self row column) as [[]|e] eqn:Ev.
  - apply validate_ok_inv in Ev.
    destruct (Board_click_spec self row column Hok Ev) as (b & log & E & _).
    unfold Board_click in E. rewrite E.
    eapply click_at_depth_deeper; [|exact E]. lia.
  - destruct depth as [|depth]; [lia|]. simpl. by rewrite Ev.
Qed.

(** A click on a flagged or an already clicked cell returns at once. *)
Lemma click_at_depth_noop depth self row column a_cell :
  in_bounds self (row, column) →
  _cells self !! (row, column) = Some a_cell →
  _flag a_cell = Flag ∨ _clicked a_cell = ClickedState →
  click_at_depth (S depth) self row column = Ok (self, []).
Proof.
  intros Hin Hc Hs. simpl. rewrite validate_in_bounds by done. simpl.
  unfold dict_get. rewrite Hc. simpl.
  unfold Cell_click, FlagState_click, ClickState_click.
  destruct Hs as [-> | ->]; [done|]. by destruct (_flag a_cell).
Qed.

Lemma Board_click_noop self row column a_cell :
  in_bounds self (row, column) →
  _cells self !! (row, column) = Some a_cell →
  _flag a_cell = Flag ∨ _clicked a_cell = ClickedState →
  Board_click self row column = Ok (self, []).
Proof. apply click_at_depth_noop. Qed.

(** ** The calls keep the grid complete *)

Lemma store_cell_board_ok self key a_cell :
  board_ok self → board_ok (store_cell key a_cell self).
Proof.
  intros Hok q Hq. simpl. rewrite lookup_insert.
  case_decide; [by eexists | by apply Hok].
Qed.

Lemma Board_put_flag_ok self row column :
  board_ok self → in_bounds self (row, column) →
  ∃ a_cell,
    _cells self !! (row, column) = Some a_cell ∧
    Board_put_flag self row column
    = Ok (store_cell (row, column) (Cell_put_flag a_cell) self).
Proof.
  intros Hok Hin. destruct (Hok _ Hin) as [a_cell Hc]. exists a_cell.
  split; [done|]. unfold Board_put_flag.
  rewrite validate_in_bounds by done. simpl. unfold dict_get. by rewrite Hc.
Qed.

Lemma Board_remove_flag_ok self row column :
  board_ok self → in_bounds self (row, column) →
  ∃ a_cell,
    _cells self !! (row, column) = Some a_cell ∧
    Board_remove_flag self row column
    = Ok (store_cell (row, column) (Cell_remove_flag a_cell) self).
Proof.
  intros Hok Hin. destruct (Hok _ Hin) as [a_cell Hc]. exists a_cell.
  split; [done|]. unfold Board_remove_flag.
  rewrite validate_in_bounds by done. simpl. unfold dict_get. by rewrite Hc.
Qed.

Lemma step_has_shape self op : board_ok self → step_shape self (step self op).
Proof.
  intros Hok. unfold step. destruct op as [row column|row column|row column]; simpl.
  - destruct (_validate_cell self row column) as [[]|e] eqn:Ev.
    + apply validate_ok_inv in Ev.
      destruct (Board_click_spec self row column Hok Ev) as (b & log & -> & P).
      simpl. by eapply shape_click.
    + unfold Board_click. simpl. rewrite Ev. simpl. apply shape_same.
  - destruct (_validate_cell self row column) as [[]|e] eqn:Ev.
    + apply validate_ok_inv in Ev.
      destruct (Board_put_flag_ok self row column Hok Ev) as (a_cell & Hc & ->).
      by apply shape_put_flag.
    + unfold Board_put_flag. rewrite Ev. simpl. apply shape_same.
  - destruct (_validate_cell self row column) as [[]|e] eqn:Ev.
    + apply validate_ok_inv in Ev.
      destruct (Board_remove_flag_ok self row column Hok Ev) as (a_cell & Hc & ->).
      by apply shape_remove_flag.
    + unfold Board_remove_flag. rewrite Ev. simpl. apply shape_same.
Qed.

Lemma step_shape_board_ok self self' :
  board_ok self → step_shape self self' → board_ok self'.
Proof.
  intros Hok [| row column b log _ P | |]; try done.
  - apply (cf_board_ok _ _ _ (co_from _ _ _ _ P) Hok).
  - by apply store_cell_board_ok.
  - by apply store_cell_board_ok.
Qed.

Lemma step_board_ok self op : board_ok self → board_ok (step self op).
Proof. intros Hok. eapply step_shape_board_ok; [done | by apply step_has_shape]. Qed.

Lemma run_ops_board_ok ops : ∀ self, board_ok self → board_ok (run_ops self ops).
Proof.
  induction ops as [|op ops IH]; intros self Hok; [done|].
  simpl. apply IH. by apply step_board_ok.
Qed.

(** An invariant of single calls holds along every sequence of calls. *)
Lemma run_ops_ind (P : Board → Board → Prop) :
  (∀ self, P self self) →
  (∀ b1 b2 b3, board_ok b1 → P b1 b2 → board_ok b2 → step_shape b2 b3 → P b1 b3) →
  ∀ ops self, board_ok self → P self (run_ops self ops).
Proof.
  intros Hrefl Hstep ops self Hok.
  assert (∀ ops b, board_ok b → P self b → P self (run_ops b ops)) as Hgen.
  { clear ops. induction ops as [|op ops IH]; intros b Hb HP; [done|].
    simpl. apply IH; [by apply step_board_ok|].
    eapply Hstep; [done | exact HP | done | by apply step_has_shape]. }
  by apply Hgen.
Qed.

(** ** The grid *)

Lemma elem_of_grid self key : key ∈ grid self ↔ in_bounds self key.
Proof.
  unfold grid, in_bounds, range. rewrite list_elem_of_bind. split.
  - intros (row & Hin & Hrow). apply list_elem_of_bind in Hin as (col & Hin & Hcol).
    apply list_elem_of_singleton in Hin as ->. simpl.
    apply elem_of_seqZ in Hrow. apply elem_of_seqZ in Hcol. lia.
  - destruct key as [row col]. simpl. intros [Hr Hc]. exists row. split.
    + apply list_elem_of_bind. exists col.
      split; [by apply list_elem_of_singleton | apply elem_of_seqZ; lia].
    + apply elem_of_seqZ. lia.
Qed.

Lemma StronglySorted_seqZ n : ∀ m, StronglySorted Z.lt (seqZ m n).
Proof.
  induction (Z.to_nat n) as [|k IH] eqn:E in n |- *; intros m.
  - assert (seqZ m n = []) as ->; [|constructor].
    apply length_zero_iff_nil. by rewrite length_seqZ.
  - rewrite seqZ_cons by lia. constructor.
    + apply IH. lia.
    + apply Forall_forall. intros x Hx. apply elem_of_seqZ in Hx. lia.
Qed.

Section Product.

Variables rs cs : list Z.

Lemma StronglySorted_product :
  StronglySorted Z.lt rs → StronglySorted Z.lt cs →
  StronglySorted row_major_lt (row ← rs; col ← cs; [(row, col)]).
Proof.
  intros Hrs Hcs. induction Hrs as [|r rs' Hs IH Hall]; [constructor|].
  simpl. apply StronglySorted_app_2.
  - intros p q Hp Hq.
    apply list_elem_of_bind in Hp as (c & ->%list_elem_of_singleton & _).
    apply list_elem_of_bind in Hq as (r' & Hq & Hr').
    apply list_elem_of_bind in Hq as (c' & ->%list_elem_of_singleton & _).
    left. simpl. rewrite Forall_forall in Hall. by apply Hall.
  - clear IH. induction Hcs as [|c cs' Hs' IH' Hall']; [constructor|].
    simpl. constructor; [done|]. apply Forall_forall. intros q Hq.
    apply list_elem_of_bind in Hq as (c' & ->%list_elem_of_singleton & Hc').
    right. simpl. rewrite Forall_forall in Hall'. split; [done | by apply Hall'].
  - done.
Qed.

Lemma NoDup_product :
  NoDup rs → NoDup cs → NoDup (row ← rs; col ← cs; [(row, col)]).
Proof.
  intros Hrs Hcs. apply NoDup_bind; [| |done].
  - intros r1 r2 q _ _ H1 H2.
    apply list_elem_of_bind in H1 as (c1 & ->%list_elem_of_singleton & _).
    apply list_elem_of_bind in H2 as (c2 & [= -> _]%list_elem_of_singleton & _).
    done.
  - intros r _. apply NoDup_bind; [| |done].
    + intros c1 c2 q _ _ ->%list_elem_of_singleton [= ->]%list_elem_of_singleton.
      done.
    + intros c _. apply NoDup_singleton.
Qed.

Lemma length_product :
  length (row ← rs; col ← cs; [(row, col)]) = (length rs * length cs)%nat.
Proof.
  induction rs as [|r rs' IH]; [done|].
  rewrite bind_cons, length_app, IH. simpl. f_equal.
  clear. induction cs as [|c cs' IH]; [done|].
  rewrite bind_cons. simpl. by rewrite IH.
Qed.

End Product.

Lemma NoDup_grid self : NoDup (grid self).
Proof. apply NoDup_product; apply NoDup_seqZ. Qed.

Lemma length_grid self :
  length (grid self) = (Z.to_nat (rows self) * Z.to_nat (columns self))%nat.
Proof. unfold grid, range. by rewrite length_product, !length_seqZ. Qed.

(** ** Construction *)

Lemma lookup_foldl_bombs (v : Cell) positions : ∀ (d : gmap (Z * Z) Cell) q,
  foldl (λ d pos, <[pos := v]> d) d positions !! q
  = if decide (q ∈ positions) then Some v else d !! q.
Proof.
  induction positions as [|pos rest IH]; intros d q; cbn [foldl].
  - by rewrite decide_False by apply not_elem_of_nil.
  - rewrite IH, lookup_insert.
    destruct (decide (q ∈ rest)) as [Hin|Hin].
    + by rewrite decide_True by by apply list_elem_of_further.
    + destruct (decide (pos = q)) as [->|Hne].
      * by rewrite decide_True by apply list_elem_of_here.
      * rewrite decide_False; [done|]. rewrite elem_of_cons. intuition congruence.
Qed.

Lemma lookup_foldl_row (F : Z → Z → Cell) row cs : ∀ (d : gmap (Z * Z) Cell) r c,
  foldl (λ d col, <[(row, col) := F row col]> d) d cs !! (r, c)
  = if decide (r = row ∧ c ∈ cs) then Some (F r c) else d !! (r, c).
Proof.
  induction cs as [|col rest IH]; intros d r c; cbn [foldl].
  - rewrite decide_False; [done|]. intros [_ H]. by apply not_elem_of_nil in H.
  - rewrite IH, lookup_insert.
    destruct (decide (r = row ∧ c ∈ rest)) as [[-> Hin]|Hin].
    + rewrite decide_True; [done|]. split; [done | by apply list_elem_of_further].
    + destruct (decide ((row, col) = (r, c))) as [[= -> ->]|Hne].
      * rewrite decide_True; [done|]. split; [done | apply list_elem_of_here].
      * rewrite decide_False; [done|]. rewrite elem_of_cons. intuition congruence.
Qed.

Lemma lookup_foldl_grid (F : Z → Z → Cell) rs cs : ∀ (d : gmap (Z * Z) Cell) r c,
  foldl (λ d row, foldl (λ d col, <[(row, col) := F row col]> d) d cs) d rs
    !! (r, c)
  = if decide (r ∈ rs ∧ c ∈ cs) then Some (F r c) else d !! (r, c).
Proof.
  induction rs as [|row rest IH]; intros d r c; cbn [foldl].
  - rewrite decide_False; [done|]. intros [H _]. by apply not_elem_of_nil in H.
  - rewrite IH, lookup_foldl_row.
    destruct (decide (r ∈ rest ∧ c ∈ cs)) as [[Hr Hc]|Hin].
    + rewrite decide_True; [done|]. split; [by apply list_elem_of_further | done].
    + destruct (decide (r = row ∧ c ∈ cs)) as [[-> Hc]|Hne].
      * rewrite decide_True; [done|]. split; [apply list_elem_of_here | done].
      * rewrite decide_False; [done|]. rewrite elem_of_cons. intuition congruence.
Qed.

Lemma sum_ones {A : Type} (l : list A) :
  foldr Z.add 0 ((λ _, 1) <$> l) = Z.of_nat (length l).
Proof.
  induction l as [|x l IH]; [done|].
  rewrite fmap_cons. cbn [foldr]. rewrite IH.
  change (length (x :: l)) with (S (length l)). lia.
Qed.

Lemma bomb_counter_spec positions neighbors :
  bomb_counter (foldl (λ d pos, <[pos := Cell___init__ BombCell]> d) ∅ positions)
    neighbors
  = Z.of_nat (length (filter (λ x, x ∈ positions) neighbors)).
Proof.
  unfold bomb_counter.
  rewrite (list_filter_iff _ (λ x, x ∈ positions)); [apply sum_ones|].
  intros x. cbv beta. rewrite lookup_foldl_bombs. case_decide.
  - split; [done | by eexists].
  - rewrite lookup_empty. split; [by intros [? ?] | done].
Qed.

(** The cells of a freshly built board. *)
Lemma Board_init_spec rows0 columns0 bombs0 bomb_placer self :
  Board___init__ rows0 columns0 bombs0 bomb_placer = Ok self →
  ∃ positions,
    get_bomb_positions bomb_placer rows0 columns0 bombs0 = Ok positions ∧
    rows self = rows0 ∧ columns self = columns0 ∧ bombs self = bombs0 ∧
    exploded_bomb self = None ∧
    ∀ key,
      _cells self !! key =
      if decide (key ∈ positions) then Some (Cell___init__ BombCell)
      else if decide (in_bounds self key)
      then Some (build_plain_cell
                   (Z.of_nat (length (filter (λ x, x ∈ positions)
                                        (_get_neighbors self key.1 key.2)))))
      else None.
Proof.
  unfold Board___init__, _place_bombs. simpl.
  destruct (get_bomb_positions bomb_placer rows0 columns0 bombs0)
    as [positions|] eqn:Ep; [|done].
  simpl. intros [= <-]. exists positions. simpl.
  repeat split. intros [r c].
  rewrite lookup_union, lookup_foldl_bombs, lookup_empty.
  rewrite (lookup_foldl_grid
             (λ row col, build_plain_cell (bomb_counter _ (_get_neighbors _ row col)))).
  rewrite lookup_empty, bomb_counter_spec.
  destruct (decide ((r, c) ∈ positions)).
  - by destruct (decide (_ ∧ _)).
  - unfold in_bounds, range. simpl.
    destruct (decide (r ∈ seqZ 0 rows0 ∧ c ∈ seqZ 0 columns0)) as [Hin|Hin];
      rewrite !elem_of_seqZ in Hin.
    + by rewrite decide_True by lia.
    + by rewrite decide_False by lia.
Qed.

Lemma build_plain_cell_class counter :
  cell_class (build_plain_cell counter) ≠ BombCell.
Proof. unfold build_plain_cell. by case_decide. Qed.

Lemma build_plain_cell_fresh counter :
  _flag (build_plain_cell counter) = NoFlag ∧
  _clicked (build_plain_cell counter) = UnclikedState.
Proof. unfold build_plain_cell. by case_decide. Qed.

Section Fresh.

Variables (rows0 columns0 bombs0 : Z) (bomb_placer : BombPlacerStrategy).
Variables (self : Board) (positions : list (Z * Z)).
Hypothesis Hinit : Board___init__ rows0 columns0 bombs0 bomb_placer = Ok self.
Hypothesis Hplaced :
  get_bomb_positions bomb_placer rows0 columns0 bombs0 = Ok positions.

Lemma init_cells key :
  _cells self !! key =
  if decide (key ∈ positions) then Some (Cell___init__ BombCell)
  else if decide (in_bounds self key)
  then Some (build_plain_cell
               (Z.of_nat (length (filter (λ x, x ∈ positions)
                                    (_get_neighbors self key.1 key.2)))))
  else None.
Proof.
  destruct (Board_init_spec _ _ _ _ _ Hinit) as (ps & Hps & _ & _ & _ & _ & Hc).
  rewrite Hplaced in Hps. injection Hps as <-. apply Hc.
Qed.

Lemma init_board_ok : board_ok self.
Proof.
  intros key Hin. rewrite init_cells.
  case_decide; [by eexists|]. rewrite decide_True by done. by eexists.
Qed.

Lemma init_bomb_iff key : class_at self key = Some BombCell ↔ key ∈ positions.
Proof.
  unfold class_at. rewrite init_cells.
  destruct (decide (key ∈ positions)); [done|].
  destruct (decide (in_bounds self key)); simpl; [|naive_solver].
  pose proof (build_plain_cell_class
    (Z.of_nat (length (filter (λ x, x ∈ positions)
                         (_get_neighbors self key.1 key.2))))).
  naive_solver.
Qed.

Lemma init_fresh key a_cell :
  _cells self !! key = Some a_cell →
  _flag a_cell = NoFlag ∧ _clicked a_cell = UnclikedState.
Proof.
  rewrite init_cells. case_decide; [by intros [= <-]|].
  case_decide; [|done]. intros [= <-]. apply build_plain_cell_fresh.
Qed.

Lemma init_bombs_around row column :
  Z.of_nat (length (filter (λ x, x ∈ positions) (_get_neighbors self row column)))
  = bombs_around self (row, column).
Proof.
  unfold bombs_around. f_equal. apply Permutation_length, NoDup_Permutation.
  - apply NoDup_filter, NoDup_py_set.
  - apply NoDup_filter, NoDup_grid.
  - intros x. rewrite !list_elem_of_filter, elem_of_get_neighbors, elem_of_grid.
    rewrite init_bomb_iff. tauto.
Qed.

End Fresh.

(** ** The random placer *)

Lemma sample_draw_spec {A : Type} k : ∀ (rng : list nat) (population : list A),
  (k ≤ length population)%nat →
  length (sample_draw rng population k) = k ∧
  ∃ rest, sample_draw rng population k ++ rest ≡ₚ population.
Proof.
  induction k as [|k IH]; intros rng population Hk.
  - split; [done|]. by exists population.
  - cbn [sample_draw].
    assert (hd 0%nat rng `mod` length population < length population)%nat as Hi
      by (apply Nat.mod_upper_bound; lia).
    apply lookup_lt_is_Some_2 in Hi as Hx. destruct Hx as [x Hx]. rewrite Hx.
    destruct (IH (tl rng) (delete (hd 0%nat rng `mod` length population)%nat population))
      as (Hlen & rest & Hperm).
    { rewrite length_delete by by eexists. lia. }
    split; [by rewrite length_cons, Hlen|].
    exists rest. rewrite <- app_comm_cons, Hperm. symmetry.
    by apply delete_Permutation.
Qed.

Lemma remove_dups_NoDup (l : list (Z * Z)) : NoDup l → remove_dups l = l.
Proof.
  induction 1 as [|x l Hx _ IH]; [done|].
  cbn [remove_dups]. destruct (decide_rel elem_of x l); [done|]. by rewrite IH.
Qed.

Lemma random_placer_spec rng rows0 columns0 bombs0 positions :
  get_bomb_positions (RandomBombPlacerStrategy rng) rows0 columns0 bombs0
  = Ok positions →
  NoDup positions ∧ Z.of_nat (length positions) = bombs0 ∧
  ∀ p, p ∈ positions → (0 ≤ p.1 < rows0) ∧ (0 ≤ p.2 < columns0).
Proof.
  simpl. unfold random_sample. case_bool_decide as Hk; [|done]. simpl.
  intros [= <-].
  set (population := x ← range rows0; y ← range columns0; [(x, y)]) in *.
  destruct (sample_draw_spec (Z.to_nat bombs0) rng population) as (Hlen & rest & Hperm);
    [lia|].
  assert (NoDup population) as Hnd by (apply NoDup_product; apply NoDup_seqZ).
  rewrite <- Hperm in Hnd. apply NoDup_app in Hnd as (Hnd & _ & _).
  split; [apply NoDup_py_set|]. split.
  - unfold py_set. rewrite set_iter_perm.
    rewrite remove_dups_NoDup by done. lia.
  - intros p Hp. rewrite elem_of_py_set in Hp.
    assert (p ∈ population) as Hin.
    { rewrite <- Hperm. apply elem_of_app. by left. }
    pose proof (elem_of_grid
      {| rows := rows0; columns := columns0; bombs := bombs0;
         _cells := ∅; exploded_bomb := None |} p) as Hg.
    by apply Hg in Hin.
Qed.

Lemma random_placer_total rng rows0 columns0 bombs0 :
  0 ≤ rows0 → 0 ≤ columns0 → 0 ≤ bombs0 ≤ rows0 * columns0 →
  ∃ positions,
    get_bomb_positions (RandomBombPlacerStrategy rng) rows0 columns0 bombs0
    = Ok positions.
Proof.
  intros Hr Hc Hb. simpl. unfold random_sample, range.
  rewrite length_product, !length_seqZ.
  rewrite bool_decide_eq_true_2 by lia. by eexists.
Qed.

(** ** The layout never changes *)

Lemma same_layout_refl self : same_layout self self.
Proof. by repeat split. Qed.

Lemma same_layout_trans b1 b2 b3 :
  same_layout b1 b2 → same_layout b2 b3 → same_layout b1 b3.
Proof.
  intros (Hr1 & Hc1 & Hb1 & Hk1) (Hr2 & Hc2 & Hb2 & Hk2).
  repeat split; try congruence; intros key; by rewrite Hk2, Hk1.
Qed.

Lemma store_cell_same_layout self key a_cell a_cell' :
  _cells self !! key = Some a_cell →
  cell_class a_cell' = cell_class a_cell →
  same_layout self (store_cell key a_cell' self).
Proof.
  intros Hc Hk. repeat split. intros q. unfold class_at. simpl.
  rewrite lookup_insert. case_decide; [|done]. subst. rewrite Hc. simpl.
  by rewrite Hk.
Qed.

Lemma step_shape_same_layout self self' :
  step_shape self self' → same_layout self self'.
Proof.
  intros [| row column b log _ P | row column a_cell _ Hc | row column a_cell _ Hc].
  - apply same_layout_refl.
  - pose proof (co_from _ _ _ _ P) as F. repeat split; try apply F.
    apply (cf_class _ _ _ F).
  - eapply store_cell_same_layout; [done|].
    unfold Cell_put_flag. by destruct (_clicked a_cell).
  - by eapply store_cell_same_layout.
Qed.

Lemma run_ops_same_layout self ops :
  board_ok self → same_layout self (run_ops self ops).
Proof.
  intros Hok. apply (run_ops_ind same_layout); [apply same_layout_refl | | done].
  intros b1 b2 b3 _ H12 _ H23. eapply same_layout_trans; [done|].
  by apply step_shape_same_layout.
Qed.

Lemma bomb_filter_dom (self : Board) :
  dom (filter (λ kv, cell_class kv.2 = BombCell) (_cells self))
  = filter (λ key, class_at self key = Some BombCell) (dom (_cells self)).
Proof.
  apply set_eq. intros key. rewrite elem_of_filter, !elem_of_dom.
  unfold class_at, is_Some. setoid_rewrite map_lookup_filter_Some. simpl.
  split.
  - intros (c & Hc & Hk). rewrite Hc. simpl. rewrite Hk. eauto.
  - intros (Hk & c & Hc). rewrite Hc in Hk. simpl in Hk. exists c.
    split; [done | congruence].
Qed.

Lemma bomb_cells_count_alt (self : Board) (keys : gset (Z * Z)) :
  (∀ key, key ∈ keys ↔ class_at self key = Some BombCell) →
  bomb_cells_count self = Z.of_nat (size keys).
Proof.
  intros Hk. unfold bomb_cells_count. f_equal.
  rewrite <- (size_dom (D := gset (Z * Z))). f_equal.
  apply set_eq. intros key. rewrite Hk, elem_of_dom.
  unfold class_at, is_Some. setoid_rewrite map_lookup_filter_Some. simpl.
  split.
  - intros (c & Hc & Hb). rewrite Hc. simpl. by rewrite Hb.
  - destruct (_cells self !! key) as [c|]; [|done]. simpl.
    intros [= Hb]. by exists c.
Qed.

Lemma same_layout_counts self self' :
  same_layout self self' →
  bomb_cells_count self' = bomb_cells_count self ∧
  bombs_on_grid self' = bombs_on_grid self.
Proof.
  intros (Hr & Hc & _ & Hk). split.
  - set (keys := dom (filter (λ kv, cell_class kv.2 = BombCell) (_cells self))).
    assert (∀ key, key ∈ keys ↔ class_at self key = Some BombCell) as Hkeys.
    { intros key. unfold keys. rewrite bomb_filter_dom, elem_of_filter, elem_of_dom.
      unfold class_at. split; [tauto|]. intros H. split; [done|].
      destruct (_cells self !! key); [by eexists | done]. }
    rewrite (bomb_cells_count_alt self keys Hkeys).
    apply bomb_cells_count_alt. intros key. by rewrite Hk.
  - unfold bombs_on_grid, grid. rewrite Hr, Hc. do 2 f_equal.
    apply list_filter_iff. intros key. by rewrite Hk.
Qed.

Lemma init_bomb_counts rows0 columns0 bombs0 bomb_placer self positions :
  Board___init__ rows0 columns0 bombs0 bomb_placer = Ok self →
  get_bomb_positions bomb_placer rows0 columns0 bombs0 = Ok positions →
  NoDup positions →
  bomb_cells_count self = Z.of_nat (length positions) ∧
  ((∀ p, p ∈ positions → in_bounds self p) →
   bombs_on_grid self = Z.of_nat (length positions)).
Proof.
  intros Hinit Hplaced Hnd. split.
  - rewrite (bomb_cells_count_alt self (list_to_set positions)).
    + by rewrite size_list_to_set.
    + intros key. rewrite elem_of_list_to_set.
      symmetry. by eapply init_bomb_iff.
  - intros Hin. unfold bombs_on_grid. apply f_equal.
    apply Permutation_length, NoDup_Permutation; [|done|].
    + apply NoDup_filter, NoDup_grid.
    + intros key. rewrite list_elem_of_filter, elem_of_grid.
      rewrite (init_bomb_iff _ _ _ _ _ _ Hinit Hplaced).
      split; [tauto|]. intros Hk. split; [done | by apply Hin].
Qed.

(** ** Clicked cells carry no flag *)

Lemma init_clicked_unflagged rows0 columns0 bombs0 bomb_placer self :
  Board___init__ rows0 columns0 bombs0 bomb_placer = Ok self →
  clicked_unflagged self.
Proof.
  intros Hinit key a_cell Hc _.
  destruct (Board_init_spec _ _ _ _ _ Hinit) as (ps & Hps & _).
  by destruct (init_fresh _ _ _ _ _ _ Hinit Hps key a_cell Hc).
Qed.

Lemma step_shape_clicked_unflagged self self' :
  clicked_unflagged self → step_shape self self' → clicked_unflagged self'.
Proof.
  intros Hinv [| row column b log _ P | row column a_cell _ Hc | row column a_cell _ Hc];
    [done| | |]; intros key c.
  - rewrite (cf_cells _ _ _ (co_from _ _ _ _ P)). case_decide as Hin; [|apply Hinv].
    destruct (co_fresh _ _ _ _ P key Hin) as (_ & _ & Hf). unfold unflagged in Hf.
    destruct (_cells self !! key) as [c0|]; [|done]. simpl in *.
    intros [= <-] _. simpl. congruence.
  - simpl. rewrite lookup_insert. case_decide; [|apply Hinv].
    intros [= <-]. unfold Cell_put_flag.
    destruct (_clicked a_cell) eqn:E; simpl; [|by rewrite E].
    intros _. by eapply Hinv.
  - simpl. rewrite lookup_insert. case_decide; [|apply Hinv]. by intros [= <-].
Qed.

(** ** Iteration *)

Lemma yield_cells_spec self keys :
  (∀ key, key ∈ keys → is_Some (_cells self !! key)) →
  ∃ triples,
    yield_cells self keys = Ok triples ∧
    triples.*1 = keys ∧
    ∀ key a_cell, (key, a_cell) ∈ triples → _cells self !! key = Some a_cell.
Proof.
  induction keys as [|[row col] rest IH]; intros Hall.
  - exists []. split; [done|]. split; [done|].
    intros key a_cell H. by apply not_elem_of_nil in H.
  - destruct (Hall (row, col)) as [c Hc]; [apply list_elem_of_here|].
    destruct IH as (triples & E & Hkeys & Hcells).
    { intros key Hk. apply Hall. by apply list_elem_of_further. }
    exists ((row, col, c) :: triples). split; [|split].
    + simpl. unfold dict_get. rewrite Hc. simpl. by rewrite E.
    + rewrite fmap_cons. by rewrite Hkeys.
    + intros key a_cell [[= -> ->]|Hin]%elem_of_cons; [done | by apply Hcells].
Qed.

(** ** Regions *)

Lemma reach_snoc self p e q :
  reach self p e → class_at self e = Some EmptyPlainCell →
  in_bounds self q → adjacent e q → reach self p q.
Proof.
  intros Hr. revert q. induction Hr as [p|p x e Hp Hx Hpx _ IH]; intros q He Hq Ha.
  - apply (reach_next _ p q q); [done..|apply reach_here].
  - apply (reach_next _ p x q); [done..|by apply IH].
Qed.

Lemma reach_last self p q :
  reach self p q →
  q = p ∨ ∃ e, in_region self p e ∧ in_bounds self q ∧ adjacent e q.
Proof.
  induction 1 as [p|p x q Hp Hx Hpx Hr IH]; [by left|]. right.
  destruct IH as [->|(e & [He Hk] & Hq & Ha)].
  - exists p. split; [|exact (conj Hx Hpx)]. split; [apply reach_here | exact Hp].
  - exists e. split; [|done]. split; [|done].
    exact (reach_next _ p x e Hp Hx Hpx He).
Qed.

Lemma reach_start_empty self p q :
  reach self p q → class_at self q = Some EmptyPlainCell →
  class_at self p = Some EmptyPlainCell.
Proof. by destruct 1. Qed.

Lemma reach_from_other self p q :
  reach self p q → class_at self p ≠ Some EmptyPlainCell → q = p.
Proof. by destruct 1. Qed.

Lemma log_bound (self : Board) (log : list (Z * Z)) :
  NoDup log → (∀ key, key ∈ log → hidden self key) →
  (length log ≤ hidden_count self)%nat.
Proof.
  intros Hnd Hh. rewrite <- (size_list_to_set (C := gset (Z * Z))) by done.
  unfold hidden_count. rewrite <- (size_dom (D := gset (Z * Z))).
  apply subseteq_size. intros key Hk. apply elem_of_list_to_set, Hh in Hk.
  apply elem_of_dom. unfold hidden in Hk.
  destruct (_cells self !! key) as [c|] eqn:Hc; [|done].
  exists c. apply map_lookup_filter_Some. split; [done|]. simpl in *. congruence.
Qed.

Lemma step_shape_revealed self self' key :
  step_shape self self' → revealed self key → revealed self' key.
Proof.
  intros [| row column b log _ P | row column a_cell _ Hc | row column a_cell _ Hc];
    [done| | |]; unfold revealed.
  - apply (cf_revealed _ _ _ (co_from _ _ _ _ P)).
  - simpl. rewrite lookup_insert. case_decide; [|done]. subst.
    rewrite Hc. simpl. intros [= E]. unfold Cell_put_flag. rewrite E. simpl.
    by rewrite E.
  - simpl. rewrite lookup_insert. case_decide; [|done]. subst. by rewrite Hc.
Qed.

(** ** Fresh boards *)

Lemma reach_in_bounds self p q :
  in_bounds self p → reach self p q → in_bounds self q.
Proof. intros Hp Hr. induction Hr as [|p x q _ Hx _ _ IH]; [done | by apply IH]. Qed.

Lemma fresh_region_hidden rows0 columns0 bombs0 bomb_placer self p q :
  Board___init__ rows0 columns0 bombs0 bomb_placer = Ok self →
  in_bounds self p → reach self p q → hidden self q ∧ unflagged self q.
Proof.
  intros Hinit Hp Hr. apply (reach_in_bounds _ _ _ Hp) in Hr as Hq.
  destruct (Board_init_spec _ _ _ _ _ Hinit) as (ps & Hps & _).
  destruct (init_board_ok _ _ _ _ _ _ Hinit Hps q Hq) as [c Hc].
  destruct (init_fresh _ _ _ _ _ _ Hinit Hps q c Hc) as [Hf Hu].
  unfold hidden, unflagged. rewrite Hc. simpl. by rewrite Hf, Hu.
Qed.

Lemma init_ok rows0 columns0 bombs0 bomb_placer self :
  Board___init__ rows0 columns0 bombs0 bomb_placer = Ok self → board_ok self.
Proof.
  intros Hinit. destruct (Board_init_spec _ _ _ _ _ Hinit) as (ps & Hps & _).
  by eapply init_board_ok.
Qed.


(** ** Main results *)

(** C1. On a freshly built board, whatever the placer returned, the cell at a
    grid coordinate the placer did not choose is a plain cell whose counter
    is the number of adjacent grid coordinates that hold a bomb, found by a
    scan of the whole grid: an [EmptyPlainCell] when that number is 0, a
    [PlainCell] carrying the number otherwise.  It starts unflagged and
    unclicked. *)
Theorem C1_counter_is_adjacent_bombs
    rows0 columns0 bombs0 bomb_placer self positions row column :
  Board___init__ rows0 columns0 bombs0 bomb_placer = Ok self →
  get_bomb_positions bomb_placer rows0 columns0 bombs0 = Ok positions →
  0 ≤ row < rows0 → 0 ≤ column < columns0 →
  (row, column) ∉ positions →
  ∃ a_cell,
    _cells self !! (row, column) = Some a_cell ∧
    _flag a_cell = NoFlag ∧ _clicked a_cell = UnclikedState ∧
    (bombs_around self (row, column) = 0 →
     cell_class a_cell = EmptyPlainCell) ∧
    (bombs_around self (row, column) ≠ 0 →
     cell_class a_cell = PlainCell (bombs_around self (row, column))) ∧
    get_content a_cell = str (bombs_around self (row, column)).
Proof.
  intros Hinit Hplaced Hr Hc Hnot.
  destruct (Board_init_spec _ _ _ _ _ Hinit) as (ps & _ & Hrows & Hcols & _).
  eexists. split.
  - rewrite (init_cells _ _ _ _ _ _ Hinit Hplaced), decide_False by done.
    rewrite decide_True; [done|]. unfold in_bounds. simpl. by rewrite Hrows, Hcols.
  - simpl. rewrite (init_bombs_around _ _ _ _ _ _ Hinit Hplaced).
    unfold build_plain_cell, get_content.
    case_decide as Hn; simpl; rewrite ?Hn; by repeat split.
Qed.

(** C2. On a board whose cell at an in-bounds coordinate is unclicked:
    [put_flag] leaves it unclicked and flagged; a click then changes nothing
    and raises nothing; [remove_flag] then a click make the cell clicked. *)
Theorem C2_flag_guards_reveal self row column a_cell :
  board_ok self → in_bounds self (row, column) →
  _cells self !! (row, column) = Some a_cell →
  _clicked a_cell = UnclikedState →
  ∃ b1 b2 b3 log,
    Board_put_flag self row column = Ok b1 ∧
    hidden b1 (row, column) ∧ flagged b1 (row, column) ∧
    Board_click b1 row column = Ok (b1, []) ∧
    Board_remove_flag b1 row column = Ok b2 ∧
    Board_click b2 row column = Ok (b3, log) ∧
    revealed b3 (row, column) ∧ (row, column) ∈ log.
Proof.
  intros Hok Hin Hc Hu.
  destruct (Board_put_flag_ok self row column Hok Hin) as (c & Hc' & E1).
  rewrite Hc in Hc'. injection Hc' as <-.
  set (b1 := store_cell (row, column) (Cell_put_flag a_cell) self) in *.
  assert (Cell_put_flag a_cell = set_flag Flag a_cell) as Hput
    by (unfold Cell_put_flag; by rewrite Hu).
  assert (_cells b1 !! (row, column) = Some (set_flag Flag a_cell)) as Hc1
    by (unfold b1; simpl; by rewrite lookup_insert_eq, Hput).
  assert (board_ok b1) as Hok1 by by apply store_cell_board_ok.
  assert (in_bounds b1 (row, column)) as Hin1 by done.
  destruct (Board_remove_flag_ok b1 row column Hok1 Hin1) as (c1 & Hc1' & E2).
  rewrite Hc1 in Hc1'. injection Hc1' as <-.
  set (b2 := store_cell (row, column) (Cell_remove_flag (set_flag Flag a_cell)) b1) in *.
  assert (board_ok b2) as Hok2 by by apply store_cell_board_ok.
  assert (_cells b2 !! (row, column)
          = Some (Cell_remove_flag (set_flag Flag a_cell))) as Hc2
    by (unfold b2; simpl; by rewrite lookup_insert_eq).
  destruct (Board_click_spec b2 row column Hok2 Hin1) as (b3 & log & E3 & P3).
  assert (revealed b3 (row, column)) as Hrev.
  { apply (co_roots _ _ _ _ P3); [apply list_elem_of_here|].
    unfold unflagged. by rewrite Hc2. }
  exists b1, b2, b3, log. repeat split; try done.
  - unfold hidden. rewrite Hc1. simpl. by rewrite Hu.
  - unfold flagged. by rewrite Hc1.
  - eapply Board_click_noop; [done..|by left].
  - eapply (cf_newly_revealed _ _ _ (co_from _ _ _ _ P3)); [|done].
    unfold hidden. rewrite Hc2. simpl. by rewrite Hu.
Qed.

(** C3, as the program has it.  Take an in-bounds [EmptyPlainCell] such that
    every cell of its connected empty region is unclicked, and no cell of
    the region or around it carries a flag; the cells around the region may
    be clicked already.  A click on it clicks exactly the unclicked cells
    among the region and the cells around it, each once.  All cells of the
    region are among them, so at least as many cells as the region has go
    from unclicked to clicked; afterwards every cell around the region (its
    numbered border) is clicked; no cell beyond is touched.  And on any
    board, a click on a cell that is not an [EmptyPlainCell] changes no other
    cell. *)
Theorem C3_cascade_reveals_region self row column :
  board_ok self → in_bounds self (row, column) →
  class_at self (row, column) = Some EmptyPlainCell →
  (∀ q, in_region self (row, column) q → hidden self q) →
  (∀ q, reach self (row, column) q → unflagged self q) →
  ∃ self' log,
    Board_click self row column = Ok (self', log) ∧
    clicked_from self self' log ∧ NoDup log ∧
    (∀ q, q ∈ log ↔ reach self (row, column) q ∧ hidden self q) ∧
    (∀ q, q ∈ log → hidden self q ∧ revealed self' q) ∧
    (∀ q, in_region self (row, column) q → q ∈ log) ∧
    (∀ region, NoDup region →
       (∀ q, q ∈ region → in_region self (row, column) q) →
       (length region ≤ length log)%nat) ∧
    (∀ q, reach self (row, column) q → revealed self' q) ∧
    (∀ e q, in_region self (row, column) e → in_bounds self q →
       adjacent e q → revealed self' q) ∧
    (∀ q, q ∈ log →
       q = (row, column) ∨ ∃ e, in_region self (row, column) e ∧ adjacent e q) ∧
    (∀ q, q ∉ log → _cells self' !! q = _cells self !! q) ∧
    (∀ board r c k board' log',
       board_ok board → in_bounds board (r, c) →
       class_at board (r, c) = Some k → k ≠ EmptyPlainCell →
       Board_click board r c = Ok (board', log') →
       ∀ q, q ≠ (r, c) → _cells board' !! q = _cells board !! q).
Proof.
  intros Hok Hin Hk Hhidden Hnoflag.
  destruct (Board_click_spec self row column Hok Hin) as (b & log & E & P).
  pose proof (co_from _ _ _ _ P) as F.
  assert (∀ q, q ∈ log → reach self (row, column) q) as Hsound.
  { intros q Hq.
    by destruct (co_reach _ _ _ _ P q Hq) as (x & ->%list_elem_of_singleton & Hr). }
  assert (revealed b (row, column)) as Hroot'.
  { apply (co_roots _ _ _ _ P); [apply list_elem_of_here|].
    apply Hnoflag, reach_here. }
  assert ((row, column) ∈ log) as Hroot.
  { apply (cf_newly_revealed _ _ _ F); [|done].
    apply Hhidden. split; [apply reach_here | done]. }
  assert (∀ x q, reach self x q → class_at self q = Some EmptyPlainCell →
                 reach self (row, column) x → x ∈ log → q ∈ log) as Hstep.
  { intros x q Hr. induction Hr as [|p y q Hp Hy Hpy Hyq IH]; [done|].
    intros Hq Hrp Hpl.
    assert (reach self (row, column) y) as Hry by by eapply reach_snoc.
    apply IH; [done..|].
    apply (cf_newly_revealed _ _ _ F).
    - apply Hhidden. split; [done | by eapply reach_start_empty].
    - apply (co_closed _ _ _ _ P p y); [done..|by apply Hnoflag]. }
  assert (∀ q, in_region self (row, column) q → q ∈ log) as Hregion.
  { intros q [Hr Hq]. apply (Hstep _ _ Hr); [done | apply reach_here | done]. }
  assert (∀ q, reach self (row, column) q → revealed b q) as Hafter.
  { intros q Hr. pose proof (Hnoflag q Hr) as Hf.
    apply reach_last in Hr as [->|(e & He & Hq & Ha)]; [done|].
    apply (co_closed _ _ _ _ P e q); [by apply Hregion | apply He | done..]. }
  assert (∀ q, q ∈ log ↔ reach self (row, column) q ∧ hidden self q) as Hlog.
  { intros q. split.
    - intros Hq. split; [by apply Hsound|].
      by destruct (co_fresh _ _ _ _ P q Hq) as (_ & Hh & _).
    - intros [Hr Hh]. apply (cf_newly_revealed _ _ _ F); [done | by apply Hafter]. }
  exists b, log. split; [done|]. split; [done|]. split; [apply P|].
  split; [done|]. split; [|split; [done|split; [|split; [done|repeat split]]]].
  - intros q Hq. split; [by apply Hlog | by apply Hafter, Hsound].
  - intros region Hnd Hreg. apply submseteq_length, NoDup_submseteq; [done|].
    intros q Hq. by apply Hregion, Hreg.
  - intros e q [He Hek] Hq Ha. apply Hafter. by eapply reach_snoc.
  - intros q Hq. apply Hsound, reach_last in Hq as [->|(e & He & _ & Ha)];
      [by left | right; by exists e].
  - intros q Hq. by rewrite (cf_cells _ _ _ F), decide_False.
  - intros board r c k board' log' Hbok Hbin Hbk Hne Eb q Hq.
    destruct (Board_click_spec board r c Hbok Hbin) as (b2 & log2 & E2 & P2).
    rewrite Eb in E2. injection E2 as <- <-.
    rewrite (cf_cells _ _ _ (co_from _ _ _ _ P2)), decide_False; [done|].
    intros Hql. destruct (co_reach _ _ _ _ P2 q Hql)
      as (x & ->%list_elem_of_singleton & Hr).
    apply reach_from_other in Hr; [done|]. rewrite Hbk. congruence.
Qed.

(** C4. A click on an in-bounds coordinate returns: every recursion depth
    above the number of unclicked cells gives the same board and the same
    log.  No coordinate occurs twice in the log, so each cell goes from
    unclicked to clicked at most once, and the log holds exactly the cells
    that did; there are at most as many as there were unclicked cells.  A
    click on a clicked cell returns the board unchanged at depth one, that
    is without calling itself. *)
Theorem C4_cascade_terminates self row column :
  board_ok self → in_bounds self (row, column) →
  ∃ self' log,
    Board_click self row column = Ok (self', log) ∧
    (∀ depth, (hidden_count self < depth)%nat →
       click_at_depth depth self row column = Ok (self', log)) ∧
    NoDup log ∧
    (∀ key, key ∈ log ↔ hidden self key ∧ revealed self' key) ∧
    (length log ≤ hidden_count self)%nat ∧
    (∀ r c, in_bounds self (r, c) → revealed self (r, c) →
       click_at_depth 1 self r c = Ok (self, [])).
Proof.
  intros Hok Hin.
  destruct (Board_click_spec self row column Hok Hin) as (b & log & E & P).
  pose proof (co_from _ _ _ _ P) as F.
  exists b, log. split; [done|]. split; [|split; [apply P|split; [|split]]].
  - intros depth Hd. by rewrite click_depth_enough.
  - intros key. split.
    + intros Hk. destruct (co_fresh _ _ _ _ P key Hk) as (Hb & Hh & _).
      split; [done|]. apply (cf_log_revealed _ _ _ F); [done | by apply Hok].
    + intros [Hh Hr]. by apply (cf_newly_revealed _ _ _ F).
  - apply log_bound; [apply P|]. intros key Hk.
    by destruct (co_fresh _ _ _ _ P key Hk) as (_ & Hh & _).
  - intros r c Hb Hr. unfold revealed in Hr.
    destruct (_cells self !! (r, c)) as [a_cell|] eqn:Hc; [|done].
    eapply click_at_depth_noop; [done..|]. right. simpl in Hr. congruence.
Qed.

(** C5. A second click on the same in-bounds coordinate returns the board
    the first click returned, with nothing clicked: the board after two
    clicks is the board after one, and so are what its iteration yields and
    what each cell renders. *)
Theorem C5_reveal_idempotent self row column :
  board_ok self → in_bounds self (row, column) →
  ∃ self' log,
    Board_click self row column = Ok (self', log) ∧
    Board_click self' row column = Ok (self', []) ∧
    step (step self (Reveal row column)) (Reveal row column)
    = step self (Reveal row column) ∧
    Board___iter__ (step (step self (Reveal row column)) (Reveal row column))
    = Board___iter__ (step self (Reveal row column)) ∧
    ∀ key,
      Cell_render
        <$> _cells (step (step self (Reveal row column)) (Reveal row column)) !! key
      = Cell_render <$> _cells (step self (Reveal row column)) !! key.
Proof.
  intros Hok Hin.
  destruct (Board_click_spec self row column Hok Hin) as (b & log & E & P).
  pose proof (co_from _ _ _ _ P) as F.
  assert (Board_click b row column = Ok (b, [])) as E2.
  { destruct (cf_board_ok _ _ _ F Hok (row, column)) as [c' Hc'];
      [by apply (cf_in_bounds _ _ _ F)|].
    eapply Board_click_noop; [by apply (cf_in_bounds _ _ _ F) | done |].
    destruct (_flag c') eqn:Ef; [by left | right].
    assert (revealed b (row, column)) as Hr.
    { apply (co_roots _ _ _ _ P); [apply list_elem_of_here|].
      apply (cf_unflagged _ _ _ F). unfold unflagged. rewrite Hc'. simpl.
      by rewrite Ef. }
    unfold revealed in Hr. rewrite Hc' in Hr. simpl in Hr. congruence. }
  assert (step self (Reveal row column) = b) as Hs1
    by (unfold step; simpl; by rewrite E).
  assert (step b (Reveal row column) = b) as Hs2
    by (unfold step; simpl; by rewrite E2).
  exists b, log. by rewrite Hs1, Hs2.
Qed.

(** ** Numerals in the messages *)

Lemma digit_value_pretty (y : N) :
  (y < 10)%N → digit_value (pretty_N_char y) = Some y.
Proof.
  intros Hy.
  assert (y = 0 ∨ y = 1 ∨ y = 2 ∨ y = 3 ∨ y = 4 ∨ y = 5 ∨ y = 6 ∨ y = 7
          ∨ y = 8 ∨ y = 9)%N as H by lia.
  repeat (destruct H as [->|H]; [reflexivity|]). by subst.
Qed.

Lemma read_digits_go (x : N) : ∀ a s,
  ∃ k : N, read_digits a (pretty_N_go x s) = read_digits (a * 10 ^ k + x)%N s.
Proof.
  induction (N.lt_wf_0 x) as [x _ IH]; intros a s.
  destruct (decide (x = 0%N)) as [->|Hx].
  - exists 0%N. rewrite pretty_N_go_0. f_equal. simpl. lia.
  - rewrite pretty_N_go_step by lia.
    destruct (IH (x `div` 10)%N (N.div_lt x 10 ltac:(lia) eq_refl) a
                (String (pretty_N_char (x `mod` 10)) s)) as [k ->].
    exists (N.succ k). cbn [read_digits].
    rewrite digit_value_pretty by (apply N.mod_lt; lia).
    f_equal. rewrite N.pow_succ_r'. pose proof (N.div_mod x 10). lia.
Qed.

Lemma read_digits_pretty (x : N) : read_digits 0 (pretty x) = Some x.
Proof.
  unfold pretty, pretty_N. case_decide as Hx; [by subst|].
  destruct (read_digits_go x 0%N "") as [k ->]. simpl. f_equal; lia.
Qed.

(** The text of an integer reads back as that integer. *)
Lemma read_int_str (n : Z) : read_int (str n) = Some n.
Proof.
  unfold str, pretty, pretty_Z. destruct n as [|p|p].
  - reflexivity.
  - change (pretty p) with (pretty (N.pos p)).
    pose proof (read_digits_pretty (N.pos p)) as Hd.
    destruct (pretty (N.pos p)) as [|c s'] eqn:E; [done|].
    unfold read_int. destruct (decide (c = "-"%char)) as [->|_].
    + exfalso. unfold pretty, pretty_N in E. rewrite decide_False in E by done.
      by apply (pretty_N_go_ne_dash (N.pos p) "" s').
    + by rewrite Hd.
  - change (pretty p) with (pretty (N.pos p)).
    change ("-" +:+ pretty (N.pos p)) with (String "-" (pretty (N.pos p))).
    unfold read_int. rewrite decide_True by done.
    by rewrite read_digits_pretty.
Qed.

Lemma read_digits_sep (c : ascii) t1 t2 s1 : ∀ a1 a2 s2,
  digit_value c = None →
  is_Some (read_digits a1 s1) → is_Some (read_digits a2 s2) →
  s1 +:+ String c t1 = s2 +:+ String c t2 → s1 = s2 ∧ t1 = t2.
Proof.
  induction s1 as [|d s1 IH]; intros a1 a2 [|d2 s2] Hc H1 H2 Heq;
    cbn [String.append read_digits] in *.
  - by injection Heq.
  - injection Heq as -> _. rewrite Hc in H2. by destruct H2.
  - injection Heq as -> _. rewrite Hc in H1. by destruct H1.
  - injection Heq as -> Heq.
    destruct (digit_value d2) as [v|]; [|by destruct H1].
    destruct (IH _ _ _ Hc H1 H2 Heq) as [-> ->]. done.
Qed.

Lemma read_int_sep (c : ascii) s1 s2 t1 t2 :
  digit_value c = None → c ≠ "-"%char →
  is_Some (read_int s1) → is_Some (read_int s2) →
  s1 +:+ String c t1 = s2 +:+ String c t2 → s1 = s2 ∧ t1 = t2.
Proof.
  intros Hc Hdash H1 H2 Heq.
  destruct s1 as [|x s1]; [by destruct H1|].
  destruct s2 as [|y s2]; [by destruct H2|].
  unfold read_int in H1, H2.
  pose proof Heq as Heq'. cbn [String.append] in Heq'. injection Heq' as -> Htl.
  destruct (decide (y = "-"%char)) as [->|Hy].
  - apply fmap_is_Some in H1. apply fmap_is_Some in H2.
    destruct (read_digits_sep c t1 t2 s1 _ _ s2 Hc H1 H2 Htl) as [-> ->]. done.
  - apply fmap_is_Some in H1. apply fmap_is_Some in H2.
    by apply (read_digits_sep c t1 t2 (String y s1) _ _ (String y s2) Hc H1 H2).
Qed.

Lemma string_app_inv_head (h s1 s2 : string) : h +:+ s1 = h +:+ s2 → s1 = s2.
Proof. induction h as [|a h IH]; [done|]. simpl. intros [= H]. by apply IH. Qed.

(** A message made of fixed words around two numerals names both numbers:
    equal messages come from equal numbers. *)
Lemma message_names (head : string) (a n a' n' : Z) :
  head +:+ str a +:+ " is not in range [0, " +:+ str n +:+ ")"
  = head +:+ str a' +:+ " is not in range [0, " +:+ str n' +:+ ")" →
  a = a' ∧ n = n'.
Proof.
  intros H. apply string_app_inv_head in H.
  change (" is not in range [0, " +:+ str n +:+ ")")
    with (String " " ("is not in range [0, " +:+ str n +:+ ")")) in H.
  change (" is not in range [0, " +:+ str n' +:+ ")")
    with (String " " ("is not in range [0, " +:+ str n' +:+ ")")) in H.
  apply read_int_sep in H as [Ha H]; [|done|done|rewrite read_int_str; by eexists..].
  apply (string_app_inv_head "is not in range [0, ") in H.
  change (str n +:+ ")") with (str n +:+ String ")" "") in H.
  change (str n' +:+ ")") with (str n' +:+ String ")" "") in H.
  apply read_int_sep in H as [Hn _]; [|done|done|rewrite read_int_str; by eexists..].
  pose proof (read_int_str a) as Ea. rewrite Ha, read_int_str in Ea.
  pose proof (read_int_str n) as En. rewrite Hn, read_int_str in En.
  split; congruence.
Qed.


(** C6. [click], [put_flag] and [remove_flag] raise [InvalidCellException]
    exactly when the coordinate is out of range.  When the row is out of
    range the message is [Row], the row, [is not in range [0,], [rows] and a
    closing parenthesis; when only the column is, it is the same with
    [Column], the column and [columns].  The numbers stand in the message as
    decimal numerals that read back as the offending value and the bound, so
    that the message tells both: two messages of one kind are equal only
    for the same value and the same bound, and a row message is never a
    column message.  On every in-bounds coordinate the three calls return,
    whatever the state of the cell. *)
Theorem C6_invalid_cell_only_out_of_range self row column :
  board_ok self →
  (¬ (0 ≤ row < rows self) →
     Board_click self row column
     = Raise (InvalidCellException
                ("Row " +:+ str row +:+ " is not in range [0, "
                 +:+ str (rows self) +:+ ")")) ∧
     Board_put_flag self row column
     = Raise (InvalidCellException
                ("Row " +:+ str row +:+ " is not in range [0, "
                 +:+ str (rows self) +:+ ")")) ∧
     Board_remove_flag self row column
     = Raise (InvalidCellException
                ("Row " +:+ str row +:+ " is not in range [0, "
                 +:+ str (rows self) +:+ ")"))) ∧
  (0 ≤ row < rows self → ¬ (0 ≤ column < columns self) →
     Board_click self row column
     = Raise (InvalidCellException
                ("Column " +:+ str column +:+ " is not in range [0, "
                 +:+ str (columns self) +:+ ")")) ∧
     Board_put_flag self row column
     = Raise (InvalidCellException
                ("Column " +:+ str column +:+ " is not in range [0, "
                 +:+ str (columns self) +:+ ")")) ∧
     Board_remove_flag self row column
     = Raise (InvalidCellException
                ("Column " +:+ str column +:+ " is not in range [0, "
                 +:+ str (columns self) +:+ ")"))) ∧
  (0 ≤ row < rows self → 0 ≤ column < columns self →
     (∃ board log, Board_click self row column = Ok (board, log)) ∧
     (∃ board, Board_put_flag self row column = Ok board) ∧
     (∃ board, Board_remove_flag self row column = Ok board)) ∧
  (∀ r n c m, row_message r n ≠ column_message c m) ∧
  (∀ n, read_int (str n) = Some n) ∧
  (∀ r n r' n',
     "Row " +:+ str r +:+ " is not in range [0, " +:+ str n +:+ ")"
     = "Row " +:+ str r' +:+ " is not in range [0, " +:+ str n' +:+ ")" →
     r = r' ∧ n = n') ∧
  (∀ c m c' m',
     "Column " +:+ str c +:+ " is not in range [0, " +:+ str m +:+ ")"
     = "Column " +:+ str c' +:+ " is not in range [0, " +:+ str m' +:+ ")" →
     c = c' ∧ m = m') ∧
  (∀ r n c m,
     "Row " +:+ str r +:+ " is not in range [0, " +:+ str n +:+ ")"
     ≠ "Column " +:+ str c +:+ " is not in range [0, " +:+ str m +:+ ")").
Proof.
  intros Hok.
  split; [|split; [|split; [|split; [|split; [|split; [|split]]]]]].
  - intros Hr. repeat split.
    + unfold Board_click. simpl. by rewrite validate_bad_row.
    + unfold Board_put_flag. by rewrite validate_bad_row.
    + unfold Board_remove_flag. by rewrite validate_bad_row.
  - intros Hr Hc. repeat split.
    + unfold Board_click. simpl. by rewrite validate_bad_column.
    + unfold Board_put_flag. by rewrite validate_bad_column.
    + unfold Board_remove_flag. by rewrite validate_bad_column.
  - intros Hr Hc. repeat split.
    + destruct (Board_click_spec self row column Hok) as (b & log & E & _);
        [done | by exists b, log].
    + destruct (Board_put_flag_ok self row column Hok) as (c & _ & E);
        [done | by eexists].
    + destruct (Board_remove_flag_ok self row column Hok) as (c & _ & E);
        [done | by eexists].
  - intros r n c m. unfold row_message, column_message. simpl. discriminate.
  - apply read_int_str.
  - intros r n r' n'. apply message_names.
  - intros c m c' m'. apply message_names.
  - intros r n c m. simpl. discriminate.
Qed.

(** C7. When the placer returns [bombs] distinct in-bounds coordinates, the
    board holds exactly [bombs] bomb cells, in its dictionary and on its
    grid, after construction and after every sequence of calls.  The random
    placer is such a placer whenever it returns, and it returns when the
    dimensions are not negative and [0 ≤ bombs ≤ rows * columns]. *)
Theorem C7_bomb_count_exact :
  (∀ rows0 columns0 bombs0 bomb_placer self positions ops,
     Board___init__ rows0 columns0 bombs0 bomb_placer = Ok self →
     get_bomb_positions bomb_placer rows0 columns0 bombs0 = Ok positions →
     NoDup positions →
     (∀ p, p ∈ positions → (0 ≤ p.1 < rows0) ∧ (0 ≤ p.2 < columns0)) →
     Z.of_nat (length positions) = bombs0 →
     bomb_cells_count (run_ops self ops) = bombs0 ∧
     bombs_on_grid (run_ops self ops) = bombs0 ∧
     bombs (run_ops self ops) = bombs0) ∧
  (∀ rng rows0 columns0 bombs0,
     (∀ positions,
        get_bomb_positions (RandomBombPlacerStrategy rng) rows0 columns0 bombs0
        = Ok positions →
        NoDup positions ∧ Z.of_nat (length positions) = bombs0 ∧
        ∀ p, p ∈ positions → (0 ≤ p.1 < rows0) ∧ (0 ≤ p.2 < columns0)) ∧
     (0 ≤ rows0 → 0 ≤ columns0 → 0 ≤ bombs0 ≤ rows0 * columns0 →
      ∃ positions,
        get_bomb_positions (RandomBombPlacerStrategy rng) rows0 columns0 bombs0
        = Ok positions)).
Proof.
  split.
  - intros rows0 columns0 bombs0 bomb_placer self positions ops
      Hinit Hplaced Hnd Hin Hlen.
    destruct (Board_init_spec _ _ _ _ _ Hinit) as (ps & _ & Hr & Hc & Hb & _).
    pose proof (init_board_ok _ _ _ _ _ _ Hinit Hplaced) as Hok.
    destruct (run_ops_same_layout self ops Hok) as (_ & _ & Hb' & _).
    destruct (same_layout_counts _ _ (run_ops_same_layout self ops Hok))
      as [-> ->].
    destruct (init_bomb_counts _ _ _ _ _ _ Hinit Hplaced Hnd) as [-> Hgrid].
    rewrite Hgrid, Hb'; [done|].
    intros p Hp. unfold in_bounds. rewrite Hr, Hc. by apply Hin.
  - intros rng rows0 columns0 bombs0. split.
    + intros positions. apply random_placer_spec.
    + apply random_placer_total.
Qed.

(** C8. Along every sequence of calls on a board, a cell that is clicked
    after some calls is still clicked, and not unclicked, after any further
    calls. *)
Theorem C8_revealed_is_monotonic self ops1 ops2 key :
  board_ok self →
  revealed (run_ops self ops1) key →
  revealed (run_ops self (ops1 ++ ops2)) key ∧
  ¬ hidden (run_ops self (ops1 ++ ops2)) key.
Proof.
  intros Hok Hr.
  assert (revealed (run_ops self (ops1 ++ ops2)) key) as Hr2.
  { unfold run_ops in *. rewrite foldl_app.
    revert Hr. apply (run_ops_ind (λ b b', revealed b key → revealed b' key)).
    - done.
    - intros b1 b2 b3 _ H12 _ H23 H1. eapply step_shape_revealed; [done|].
      by apply H12.
    - by apply run_ops_board_ok. }
  split; [done|]. unfold hidden, revealed in *. congruence.
Qed.

(** C9, as the program has it.  Iterating a board yields, for the
    coordinates of the grid in row-major order (strictly increasing rows,
    and strictly increasing columns within a row), the triple of the row,
    the column and the cell stored there.  The coordinates are exactly those
    in bounds, so there are [max rows 0 * max columns 0] triples, which is
    [rows * columns] when no dimension is negative.  The result is a
    function of the board alone. *)
Theorem C9_iteration_row_major self :
  board_ok self →
  ∃ triples,
    Board___iter__ self = Ok triples ∧
    triples.*1 = grid self ∧
    (∀ row col a_cell,
       (row, col, a_cell) ∈ triples → _cells self !! (row, col) = Some a_cell) ∧
    (∀ key, key ∈ grid self ↔ in_bounds self key) ∧
    StronglySorted row_major_lt (grid self) ∧
    Z.of_nat (length triples) = Z.max (rows self) 0 * Z.max (columns self) 0 ∧
    (0 ≤ rows self → 0 ≤ columns self →
     Z.of_nat (length triples) = rows self * columns self).
Proof.
  intros Hok.
  destruct (yield_cells_spec self (grid self)) as (triples & E & Hkeys & Hcells).
  { intros key Hk. by apply Hok, elem_of_grid. }
  assert (length triples
          = (Z.to_nat (rows self) * Z.to_nat (columns self))%nat) as Hlen
    by by rewrite <- length_grid, <- Hkeys, length_fmap.
  exists triples. split; [done|]. split; [done|]. split; [|split; [|split; [|split]]].
  - intros row col a_cell. apply Hcells.
  - apply elem_of_grid.
  - apply StronglySorted_product; apply StronglySorted_seqZ.
  - rewrite Hlen. lia.
  - intros Hr Hc. rewrite Hlen. lia.
Qed.

(** C10. In every state reached from a freshly built board by a sequence of
    calls, no cell is both clicked and flagged. *)
Theorem C10_revealed_never_flagged
    rows0 columns0 bombs0 bomb_placer self ops key a_cell :
  Board___init__ rows0 columns0 bombs0 bomb_placer = Ok self →
  _cells (run_ops self ops) !! key = Some a_cell →
  _clicked a_cell = ClickedState → _flag a_cell = NoFlag.
Proof.
  intros Hinit. revert key a_cell.
  change (clicked_unflagged (run_ops self ops)).
  destruct (Board_init_spec _ _ _ _ _ Hinit) as (ps & Hps & _).
  pose proof (init_clicked_unflagged _ _ _ _ _ Hinit) as H0. revert H0.
  apply (run_ops_ind (λ b b', clicked_unflagged b → clicked_unflagged b')).
  - done.
  - intros b1 b2 b3 _ H12 _ H23 H1.
    eapply step_shape_clicked_unflagged; [by apply H12 | done].
  - by eapply init_board_ok.
Qed.

(** ** Further properties *)

(** *** Neighbours *)

Lemma elem_of_eight_around p x : x ∈ eight_around p ↔ adjacent p x.
Proof.
  destruct p as [r c], x as [a b]. unfold eight_around, adjacent.
  cbn [fst snd]. rewrite !elem_of_cons, elem_of_nil. split.
  - intros H. repeat (destruct H as [H|H]); try done;
      injection H as -> ->; (split; [intros Heq; injection Heq; lia | lia]).
  - intros (Hne & Ha & Hb).
    assert (a = r - 1 ∨ a = r ∨ a = r + 1) as Hr by lia.
    assert (b = c - 1 ∨ b = c ∨ b = c + 1) as Hc by lia.
    destruct Hr as [-> | [-> | ->]], Hc as [-> | [-> | ->]]; try done;
      repeat (first [left; reflexivity | right]).
Qed.

Lemma NoDup_eight_around p : NoDup (eight_around p).
Proof.
  destruct p as [r c]. unfold eight_around. cbn [fst snd].
  repeat (apply NoDup_cons; split;
          [rewrite ?elem_of_cons, elem_of_nil;
           intros H; repeat (destruct H as [H|H]); try done;
           injection H; lia|]).
  apply NoDup_nil_2.
Qed.

(** X1. Up to order, the neighbours of a coordinate are the in-bounds ones
    among the eight coordinates around it, each once: at most eight, exactly
    eight away from the border, never the coordinate itself, and a cell of
    the grid is a neighbour of each of its neighbours. *)
Theorem X1_neighbors_are_the_in_bounds_eight self row column :
  (_get_neighbors self row column
     ≡ₚ filter (in_bounds self) (eight_around (row, column))) ∧
  NoDup (_get_neighbors self row column) ∧
  ((row, column) ∉ _get_neighbors self row column) ∧
  (length (_get_neighbors self row column) ≤ 8)%nat ∧
  (0 < row < rows self - 1 → 0 < column < columns self - 1 →
   length (_get_neighbors self row column) = 8%nat) ∧
  (∀ x, in_bounds self (row, column) →
        x ∈ _get_neighbors self row column →
        (row, column) ∈ _get_neighbors self x.1 x.2).
Proof.
  assert (_get_neighbors self row column
            ≡ₚ filter (in_bounds self) (eight_around (row, column))) as Hperm.
  { apply NoDup_Permutation.
    - apply NoDup_py_set.
    - apply NoDup_filter, NoDup_eight_around.
    - intros x. rewrite elem_of_get_neighbors, list_elem_of_filter.
      by rewrite elem_of_eight_around. }
  split; [done|]. split; [apply NoDup_py_set|]. split; [|split; [|split]].
  - rewrite elem_of_get_neighbors. intros [_ [Hne _]]. by apply Hne.
  - rewrite Hperm.
    etrans; [apply length_filter|]. done.
  - intros Hr Hc. rewrite Hperm.
    assert (filter (in_bounds self) (eight_around (row, column))
              ≡ₚ eight_around (row, column)) as ->; [|done].
    apply NoDup_Permutation.
    + apply NoDup_filter, NoDup_eight_around.
    + apply NoDup_eight_around.
    + intros [a b]. rewrite list_elem_of_filter. split; [tauto|].
      intros Hx. split; [|done].
      apply elem_of_eight_around in Hx as (_ & Ha & Hb).
      unfold in_bounds. simpl in *. lia.
  - intros [a b] Hin. rewrite !elem_of_get_neighbors.
    intros [_ (Hne & Ha & Hb)]. split; [done|].
    unfold adjacent in *. simpl in *. repeat split; [congruence|lia..].
Qed.

(** *** Fresh boards, once more *)

(** X2. A freshly built board has a cell exactly at the coordinates of the
    grid and at those the placer returned (even out of bounds); a cell is a
    [BombCell] exactly where the placer put one; every cell is unflagged and
    unclicked and shows a blank; [bombs] is the argument, whatever the
    placer returned, and [exploded_bomb] is [None]. *)
Theorem X2_fresh_board_cells rows0 columns0 bombs0 bomb_placer self positions :
  Board___init__ rows0 columns0 bombs0 bomb_placer = Ok self →
  get_bomb_positions bomb_placer rows0 columns0 bombs0 = Ok positions →
  (∀ key, is_Some (_cells self !! key) ↔ in_bounds self key ∨ key ∈ positions) ∧
  (∀ key, class_at self key = Some BombCell ↔ key ∈ positions) ∧
  (∀ key a_cell,
     _cells self !! key = Some a_cell →
     _flag a_cell = NoFlag ∧ _clicked a_cell = UnclikedState ∧
     Cell_render a_cell = " ") ∧
  rows self = rows0 ∧ columns self = columns0 ∧ bombs self = bombs0 ∧
  exploded_bomb self = None.
Proof.
  intros Hinit Hplaced.
  destruct (Board_init_spec _ _ _ _ _ Hinit) as (ps & _ & Hr & Hc & Hb & He & _).
  split; [|split; [|split]]; [| |  | done].
  - intros key. rewrite (init_cells _ _ _ _ _ _ Hinit Hplaced).
    destruct (decide (key ∈ positions)); [split; [tauto | by eexists]|].
    destruct (decide (in_bounds self key)); [split; [tauto | by eexists]|].
    split; [by intros [? ?] | tauto].
  - intros key. by eapply init_bomb_iff.
  - intros key a_cell Hcell.
    destruct (init_fresh _ _ _ _ _ _ Hinit Hplaced key a_cell Hcell) as [Hf Hu].
    split; [done|]. split; [done|].
    unfold Cell_render. rewrite Hu. simpl. by rewrite Hf.
Qed.

(** *** Counters in every state *)

Lemma bombs_around_same_layout self self' key :
  same_layout self self' → bombs_around self' key = bombs_around self key.
Proof.
  intros (Hr & Hc & _ & Hk). unfold bombs_around, grid. rewrite Hr, Hc.
  do 2 f_equal. apply list_filter_iff. intros q. by rewrite Hk.
Qed.

Lemma counters_ok_same_layout self self' :
  same_layout self self' → counters_ok self → counters_ok self'.
Proof.
  intros Hl Hok key Hin.
  pose proof Hl as (Hr & Hc & _ & Hk).
  assert (in_bounds self key) as Hin' by (unfold in_bounds in *; by rewrite <- Hr, <- Hc).
  rewrite (bombs_around_same_layout _ _ _ Hl), Hk. by apply Hok.
Qed.

Lemma init_counters_ok rows0 columns0 bombs0 bomb_placer self :
  Board___init__ rows0 columns0 bombs0 bomb_placer = Ok self → counters_ok self.
Proof.
  intros Hinit key Hin.
  destruct (Board_init_spec _ _ _ _ _ Hinit) as (ps & Hps & _).
  unfold class_at. rewrite (init_cells _ _ _ _ _ _ Hinit Hps).
  destruct (decide (key ∈ ps)); [split; [done | by intros m]|].
  rewrite decide_True by done. destruct key as [row column]. cbn [fst snd].
  rewrite (init_bombs_around _ _ _ _ _ _ Hinit Hps).
  unfold build_plain_cell. case_decide as Hn; simpl.
  - split; [done|]. by intros m.
  - split; [done|]. by intros m [= <-].
Qed.

Lemma bombs_around_bounds self key : 0 ≤ bombs_around self key ≤ 8.
Proof.
  unfold bombs_around. split; [lia|].
  assert (length (filter (λ q, adjacent key q ∧ class_at self q = Some BombCell)
                    (grid self)) ≤ length (eight_around key))%nat as H.
  { apply submseteq_length, NoDup_submseteq; [apply NoDup_filter, NoDup_grid|].
    intros q [[Ha _] _]%list_elem_of_filter. by apply elem_of_eight_around. }
  simpl in H. lia.
Qed.

Lemma run_ops_counters_ok rows0 columns0 bombs0 bomb_placer self ops :
  Board___init__ rows0 columns0 bombs0 bomb_placer = Ok self →
  counters_ok (run_ops self ops).
Proof.
  intros Hinit. eapply counters_ok_same_layout.
  - apply run_ops_same_layout. by eapply init_ok.
  - by eapply init_counters_ok.
Qed.

(** X3. In every state reached from a freshly built board, a [PlainCell] of
    the grid carries the number of bombs around it, which is between 1 and
    8, and an [EmptyPlainCell] has no bomb around it. *)
Theorem X3_counters_in_every_state
    rows0 columns0 bombs0 bomb_placer self ops key :
  Board___init__ rows0 columns0 bombs0 bomb_placer = Ok self →
  in_bounds (run_ops self ops) key →
  (∀ n, class_at (run_ops self ops) key = Some (PlainCell n) →
        n = bombs_around (run_ops self ops) key ∧ 1 ≤ n ≤ 8) ∧
  (class_at (run_ops self ops) key = Some EmptyPlainCell →
   ∀ q, in_bounds (run_ops self ops) q → adjacent key q →
        class_at (run_ops self ops) q ≠ Some BombCell).
Proof.
  intros Hinit Hin.
  destruct (run_ops_counters_ok _ _ _ _ _ ops Hinit key Hin) as [Hempty Hplain].
  split.
  - intros n Hn. destruct (Hplain n Hn) as [-> Hne].
    pose proof (bombs_around_bounds (run_ops self ops) key). split; [done | lia].
  - intros Hk q Hq Ha Hb. specialize (Hempty Hk). unfold bombs_around in Hempty.
    assert (q ∈ filter (λ q, adjacent key q ∧ class_at (run_ops self ops) q
                                              = Some BombCell)
                   (grid (run_ops self ops))) as Hmem.
    { apply list_elem_of_filter. split; [done | by apply elem_of_grid]. }
    destruct (filter _ (grid (run_ops self ops))); [|done].
    by apply not_elem_of_nil in Hmem.
Qed.

Lemma str_digit_length n : 0 ≤ n ≤ 9 → String.length (str n) = 1%nat.
Proof.
  intros Hn.
  assert (n = 0 ∨ n = 1 ∨ n = 2 ∨ n = 3 ∨ n = 4 ∨ n = 5 ∨ n = 6 ∨ n = 7
          ∨ n = 8 ∨ n = 9) as H by lia.
  repeat (destruct H as [->|H]; [reflexivity|]). by subst.
Qed.

(** X4. In every state reached from a freshly built board, what a cell of
    the grid renders is a single character. *)
Theorem X4_render_is_one_character
    rows0 columns0 bombs0 bomb_placer self ops key a_cell :
  Board___init__ rows0 columns0 bombs0 bomb_placer = Ok self →
  in_bounds (run_ops self ops) key →
  _cells (run_ops self ops) !! key = Some a_cell →
  String.length (Cell_render a_cell) = 1%nat.
Proof.
  intros Hinit Hin Hc. unfold Cell_render, ClickState_render.
  destruct (_clicked a_cell); [|by destruct (_flag a_cell)].
  unfold get_content. destruct (cell_class a_cell) as [n| |] eqn:Hk; try done.
  destruct (run_ops_counters_ok _ _ _ _ _ ops Hinit key Hin) as [_ Hplain].
  destruct (Hplain n) as [-> _].
  { unfold class_at. rewrite Hc. simpl. by rewrite Hk. }
  pose proof (bombs_around_bounds (run_ops self ops) key).
  apply str_digit_length. lia.
Qed.

(** *** Flags *)

Lemma store_cell_id self key a_cell :
  _cells self !! key = Some a_cell → store_cell key a_cell self = self.
Proof.
  intros Hc. unfold store_cell, set_cells. rewrite insert_id by done.
  by destruct self.
Qed.

Lemma store_cell_twice self key c1 c2 :
  store_cell key c2 (store_cell key c1 self) = store_cell key c2 self.
Proof. unfold store_cell, set_cells. simpl. by rewrite insert_insert_eq. Qed.

Lemma set_flag_same f a_cell : _flag a_cell = f → set_flag f a_cell = a_cell.
Proof. intros <-. by destruct a_cell. Qed.

Lemma set_flag_twice f g a_cell : set_flag f (set_flag g a_cell) = set_flag f a_cell.
Proof. done. Qed.

(** X5. The flag calls that have nothing to do leave the board as it is:
    [put_flag] on a clicked cell or on a flagged cell, [remove_flag] on an
    unflagged cell.  Hence a second [put_flag], or a second [remove_flag],
    on the same coordinate returns the board the first one returned. *)
Theorem X5_flag_calls_without_effect self row column :
  board_ok self → in_bounds self (row, column) →
  (revealed self (row, column) → Board_put_flag self row column = Ok self) ∧
  (flagged self (row, column) → Board_put_flag self row column = Ok self) ∧
  (unflagged self (row, column) → Board_remove_flag self row column = Ok self) ∧
  (∃ b1, Board_put_flag self row column = Ok b1 ∧
         Board_put_flag b1 row column = Ok b1) ∧
  (∃ b1, Board_remove_flag self row column = Ok b1 ∧
         Board_remove_flag b1 row column = Ok b1).
Proof.
  intros Hok Hin.
  destruct (Board_put_flag_ok self row column Hok Hin) as (c & Hc & Eput).
  destruct (Board_remove_flag_ok self row column Hok Hin) as (c' & Hc' & Erem).
  rewrite Hc in Hc'. injection Hc' as <-.
  split; [|split; [|split; [|split]]].
  - unfold revealed. rewrite Hc. simpl. intros [= Hr]. rewrite Eput.
    f_equal. apply store_cell_id. unfold Cell_put_flag. by rewrite Hr.
  - unfold flagged. rewrite Hc. simpl. intros [= Hf]. rewrite Eput.
    f_equal. apply store_cell_id. unfold Cell_put_flag.
    destruct (_clicked c); simpl; [done|]. by rewrite set_flag_same.
  - unfold unflagged. rewrite Hc. simpl. intros [= Hf]. rewrite Erem.
    f_equal. apply store_cell_id. unfold Cell_remove_flag.
    by rewrite set_flag_same.
  - eexists. split; [exact Eput|].
    unfold Board_put_flag. rewrite validate_in_bounds by done. simpl.
    unfold dict_get. simpl. rewrite lookup_insert_eq. simpl.
    rewrite store_cell_twice. do 2 f_equal.
    unfold Cell_put_flag. by destruct (_clicked c) eqn:E; simpl; rewrite E.
  - eexists. split; [exact Erem|].
    unfold Board_remove_flag. rewrite validate_in_bounds by done. simpl.
    unfold dict_get. simpl. rewrite lookup_insert_eq. simpl.
    by rewrite store_cell_twice.
Qed.

(** X6. On an unflagged cell, [put_flag] then [remove_flag] gives back the
    board; on a flagged unclicked cell, so does [remove_flag] then
    [put_flag]. *)
Theorem X6_flag_round_trip self row column :
  board_ok self → in_bounds self (row, column) →
  (unflagged self (row, column) →
   ∃ b1, Board_put_flag self row column = Ok b1 ∧
         Board_remove_flag b1 row column = Ok self) ∧
  (flagged self (row, column) → hidden self (row, column) →
   ∃ b1, Board_remove_flag self row column = Ok b1 ∧
         Board_put_flag b1 row column = Ok self).
Proof.
  intros Hok Hin.
  destruct (Board_put_flag_ok self row column Hok Hin) as (c & Hc & Eput).
  destruct (Board_remove_flag_ok self row column Hok Hin) as (c' & Hc' & Erem).
  rewrite Hc in Hc'. injection Hc' as <-.
  split.
  - unfold unflagged. rewrite Hc. simpl. intros [= Hf].
    eexists. split; [exact Eput|].
    unfold Board_remove_flag. rewrite validate_in_bounds by done. simpl.
    unfold dict_get. simpl. rewrite lookup_insert_eq. simpl.
    rewrite store_cell_twice. f_equal. apply store_cell_id.
    rewrite Hc. f_equal. unfold Cell_remove_flag, Cell_put_flag.
    destruct (_clicked c); simpl; [symmetry; by apply set_flag_same|].
    rewrite set_flag_twice. symmetry. by apply set_flag_same.
  - unfold flagged, hidden. rewrite Hc. simpl. intros [= Hf] [= Hu].
    eexists. split; [exact Erem|].
    unfold Board_put_flag. rewrite validate_in_bounds by done. simpl.
    unfold dict_get. simpl. rewrite lookup_insert_eq. simpl.
    rewrite store_cell_twice. f_equal. apply store_cell_id.
    rewrite Hc. f_equal. unfold Cell_remove_flag, Cell_put_flag. simpl.
    rewrite Hu. simpl. rewrite set_flag_twice. symmetry. by apply set_flag_same.
Qed.

(** *** What a click leaves alone *)

Lemma hidden_count_log self self' log :
  clicked_from self self' log → NoDup log →
  (∀ key, key ∈ log → hidden self key) →
  (hidden_count self' + length log = hidden_count self)%nat.
Proof.
  intros F Hnd Hh. pose proof (log_bound self log Hnd Hh) as Hle.
  unfold hidden_count in *.
  rewrite <- (size_list_to_set (C := gset (Z * Z)) log) in * by done.
  rewrite <- !(size_dom (D := gset (Z * Z))) in *.
  assert (dom (filter (λ kv, _clicked kv.2 = UnclikedState) (_cells self'))
          = dom (filter (λ kv, _clicked kv.2 = UnclikedState) (_cells self))
            ∖ list_to_set log) as ->.
  { apply set_eq. intros key.
    rewrite elem_of_difference, !elem_of_dom, elem_of_list_to_set.
    unfold is_Some. setoid_rewrite map_lookup_filter_Some.
    rewrite (cf_cells _ _ _ F). split.
    - intros (c & Hc & Hu). destruct (decide (key ∈ log)); [|by eauto].
      destruct (_cells self !! key); simpl in Hc; [|done].
      injection Hc as <-. simpl in Hu. discriminate.
    - intros [(c & Hc & Hu) Hn]. rewrite decide_False by done. eauto. }
  rewrite size_difference; [lia|].
  intros key Hk. apply elem_of_list_to_set, Hh in Hk. apply elem_of_dom.
  unfold hidden in Hk. destruct (_cells self !! key) as [c|] eqn:Hc; [|done].
  exists c. apply map_lookup_filter_Some. split; [done|]. simpl in *. congruence.
Qed.

(** X7. A click, with all its cascade, changes no flag and no class of cell,
    and neither the dimensions nor the bomb count of the board; it leaves
    every flagged cell and every cell outside the grid exactly as it was;
    and the number of unclicked cells drops by exactly the number of cells
    it clicked. *)
Theorem X7_click_frame self row column :
  board_ok self → in_bounds self (row, column) →
  ∃ self' log,
    Board_click self row column = Ok (self', log) ∧
    rows self' = rows self ∧ columns self' = columns self ∧
    bombs self' = bombs self ∧
    (∀ key, _flag <$> _cells self' !! key = _flag <$> _cells self !! key) ∧
    (∀ key, class_at self' key = class_at self key) ∧
    (∀ key, flagged self key → _cells self' !! key = _cells self !! key) ∧
    (∀ key, ¬ in_bounds self key → _cells self' !! key = _cells self !! key) ∧
    (hidden_count self' + length log = hidden_count self)%nat.
Proof.
  intros Hok Hin.
  destruct (Board_click_spec self row column Hok Hin) as (b & log & E & P).
  pose proof (co_from _ _ _ _ P) as F.
  exists b, log. split; [done|].
  split; [apply F|]. split; [apply F|]. split; [apply F|].
  split; [apply (cf_flag _ _ _ F)|]. split; [apply (cf_class _ _ _ F)|].
  split; [|split].
  - intros key Hf. rewrite (cf_cells _ _ _ F), decide_False; [done|].
    intros Hk. destruct (co_fresh _ _ _ _ P key Hk) as (_ & _ & Hu).
    unfold flagged, unflagged in *. congruence.
  - intros key Hout. rewrite (cf_cells _ _ _ F), decide_False; [done|].
    intros Hk. by destruct (co_fresh _ _ _ _ P key Hk) as (? & _ & _).
  - apply hidden_count_log; [done | apply P|].
    intros key Hk. by destruct (co_fresh _ _ _ _ P key Hk) as (_ & ? & _).
Qed.

Lemma step_reveal_keeps_flagged self row column key :
  board_ok self → flagged self key →
  _cells (step self (Reveal row column)) !! key = _cells self !! key.
Proof.
  intros Hok Hf. unfold step. simpl.
  destruct (_validate_cell self row column) as [[]|e] eqn:Ev.
  - apply validate_ok_inv in Ev.
    destruct (Board_click_spec self row column Hok Ev) as (b & log & -> & P).
    simpl. rewrite (cf_cells _ _ _ (co_from _ _ _ _ P)), decide_False; [done|].
    intros Hk. destruct (co_fresh _ _ _ _ P key Hk) as (_ & _ & Hu).
    unfold flagged, unflagged in *. congruence.
  - unfold Board_click. simpl. by rewrite Ev.
Qed.

(** X8. However many clicks are made, anywhere on the board, a flagged cell
    stays exactly as it is: no click and no cascade reveals it. *)
Theorem X8_flag_protects_from_clicks self ops key :
  board_ok self → Forall is_reveal ops → flagged self key →
  _cells (run_ops self ops) !! key = _cells self !! key ∧
  flagged (run_ops self ops) key.
Proof.
  intros Hok Hops Hf.
  assert (_cells (run_ops self ops) !! key = _cells self !! key) as Heq.
  { revert self Hok Hf. induction Hops as [|op ops Hop _ IH]; intros self Hok Hf;
      [done|].
    destruct op as [row column| |]; try done. simpl.
    pose proof (step_reveal_keeps_flagged self row column key Hok Hf) as Hs.
    rewrite IH; [done | by apply step_board_ok|].
    unfold flagged. by rewrite Hs. }
  split; [done|]. unfold flagged. by rewrite Heq.
Qed.

(** *** Bombs *)

Lemma empty_has_no_bomb_around self key q :
  counters_ok self → in_bounds self key →
  class_at self key = Some EmptyPlainCell →
  in_bounds self q → adjacent key q → class_at self q ≠ Some BombCell.
Proof.
  intros Hcnt Hin Hk Hq Ha Hb.
  destruct (Hcnt key Hin) as [Hempty _]. specialize (Hempty Hk).
  unfold bombs_around in Hempty.
  assert (q ∈ filter (λ q, adjacent key q ∧ class_at self q = Some BombCell)
                 (grid self)) as Hmem.
  { apply list_elem_of_filter. split; [done | by apply elem_of_grid]. }
  destruct (filter _ (grid self)); [|done]. by apply not_elem_of_nil in Hmem.
Qed.

(** X9. In every state reached from a freshly built board, a click on a cell
    that is not a bomb clicks no bomb, however far it cascades: every bomb
    cell is left exactly as it was. *)
Theorem X9_cascade_never_reveals_a_bomb
    rows0 columns0 bombs0 bomb_placer self ops row column :
  Board___init__ rows0 columns0 bombs0 bomb_placer = Ok self →
  in_bounds (run_ops self ops) (row, column) →
  class_at (run_ops self ops) (row, column) ≠ Some BombCell →
  ∃ self' log,
    Board_click (run_ops self ops) row column = Ok (self', log) ∧
    (∀ q, q ∈ log → class_at (run_ops self ops) q ≠ Some BombCell) ∧
    (∀ q, class_at (run_ops self ops) q = Some BombCell →
          _cells self' !! q = _cells (run_ops self ops) !! q).
Proof.
  intros Hinit Hin Hnb.
  pose proof (run_ops_counters_ok _ _ _ _ _ ops Hinit) as Hcnt.
  assert (board_ok (run_ops self ops)) as Hok
    by (apply run_ops_board_ok; by eapply init_ok).
  set (board := run_ops self ops) in *.
  destruct (Board_click_spec board row column Hok Hin) as (b & log & E & P).
  assert (∀ q, q ∈ log → class_at board q ≠ Some BombCell) as Hsafe.
  { intros q Hq.
    destruct (co_reach _ _ _ _ P q Hq) as (x & ->%list_elem_of_singleton & Hr).
    destruct (reach_last _ _ _ Hr) as [->|(e & [He Hk] & Hqb & Ha)]; [done|].
    eapply empty_has_no_bomb_around; [done | | done..].
    exact (reach_in_bounds _ _ _ Hin He). }
  exists b, log. split; [done|]. split; [done|].
  intros q Hb. rewrite (cf_cells _ _ _ (co_from _ _ _ _ P)), decide_False; [done|].
  intros Hq. by apply (Hsafe q Hq).
Qed.

Lemma step_shape_exploded self self' :
  step_shape self self' → exploded_bomb self' = exploded_bomb self.
Proof.
  intros [| row column b log _ P | |]; try done.
  apply (cf_exploded _ _ _ (co_from _ _ _ _ P)).
Qed.

(** X10. No call ever records an explosion: in every state reached from a
    freshly built board, also after a click on a bomb, [exploded_bomb] is
    [None]. *)
Theorem X10_exploded_bomb_is_never_set
    rows0 columns0 bombs0 bomb_placer self ops :
  Board___init__ rows0 columns0 bombs0 bomb_placer = Ok self →
  exploded_bomb (run_ops self ops) = None.
Proof.
  intros Hinit.
  destruct (Board_init_spec _ _ _ _ _ Hinit) as (ps & _ & _ & _ & _ & He & _).
  rewrite <- He.
  apply (run_ops_ind (λ b b', exploded_bomb b' = exploded_bomb b)).
  - done.
  - intros b1 b2 b3 _ H12 _ H23. by rewrite (step_shape_exploded _ _ H23).
  - by eapply init_ok.
Qed.

(** X11. With the random placer, construction succeeds exactly when
    [0 ≤ bombs ≤ max rows 0 * max columns 0], and the board then holds
    [bombs] bomb cells, all on the grid; otherwise construction raises
    [ValueError] (from [random.sample]). *)
Theorem X11_random_construction rng rows0 columns0 bombs0 :
  (0 ≤ bombs0 ≤ Z.max rows0 0 * Z.max columns0 0 →
   ∃ self,
     Board___init__ rows0 columns0 bombs0 (RandomBombPlacerStrategy rng) = Ok self ∧
     bomb_cells_count self = bombs0 ∧ bombs_on_grid self = bombs0) ∧
  (¬ (0 ≤ bombs0 ≤ Z.max rows0 0 * Z.max columns0 0) →
   Board___init__ rows0 columns0 bombs0 (RandomBombPlacerStrategy rng)
   = Raise ValueError).
Proof.
  assert (Z.of_nat (length (x ← range rows0; y ← range columns0; [(x, y)]))
          = Z.max rows0 0 * Z.max columns0 0) as Hlen.
  { unfold range. rewrite length_product, !length_seqZ. lia. }
  split; intros Hb.
  - assert (∃ positions,
              get_bomb_positions (RandomBombPlacerStrategy rng)
                rows0 columns0 bombs0 = Ok positions) as [positions Hps].
    { simpl. unfold random_sample.
      rewrite bool_decide_eq_true_2 by (rewrite Hlen; lia). by eexists. }
    destruct (random_placer_spec _ _ _ _ _ Hps) as (Hnd & Hn & Hin).
    assert (∃ self, Board___init__ rows0 columns0 bombs0
                      (RandomBombPlacerStrategy rng) = Ok self) as [self Hinit].
    { unfold Board___init__, _place_bombs. cbn [rows columns bombs].
      rewrite Hps. by eexists. }
    exists self. split; [done|].
    destruct (Board_init_spec _ _ _ _ _ Hinit) as (ps & _ & Hr & Hc & _).
    destruct (init_bomb_counts _ _ _ _ _ _ Hinit Hps Hnd) as [-> Hgrid].
    split; [done|]. rewrite Hgrid; [done|].
    intros p Hp. unfold in_bounds. rewrite Hr, Hc. by apply Hin.
  - unfold Board___init__, _place_bombs. simpl. unfold random_sample.
    by rewrite bool_decide_eq_false_2 by (rewrite Hlen; lia).
Qed.

(** *** Drawing *)

Lemma bind_Ok {A B : Type} (x : A) (f : A → result B) : Ok x ≫= f = f x.
Proof. done. Qed.

Lemma draw_loop_keys board triples : ∀ state,
  draw_loop board state triples = draw_keys board state triples.*1.
Proof.
  unfold draw_keys.
  induction triples as [|[[row col] c] rest IH]; intros [[acc cur] s]; [done|].
  rewrite !fmap_cons. cbn [draw_loop].
  assert (draw_cell board (acc, cur, s) (row, col, c)
          = draw_cell board (acc, cur, s) ((row, col, c).1, Cell___init__ BombCell))
    as -> by done.
  destruct (draw_cell board (acc, cur, s) ((row, col, c).1, Cell___init__ BombCell));
    simpl; [apply IH | done].
Qed.

Lemma draw_keys_app board l1 l2 : ∀ state,
  draw_keys board state (l1 ++ l2)
  = state' ← draw_keys board state l1; draw_keys board state' l2.
Proof.
  unfold draw_keys. induction l1 as [|key l1 IH]; intros state; [done|].
  rewrite <- app_comm_cons, !fmap_cons. cbn [draw_loop].
  destruct (draw_cell board state (key, Cell___init__ BombCell)); simpl;
    [apply IH | done].
Qed.

Lemma draw_keys_same_row board r cs : ∀ acc s,
  (∀ c, c ∈ cs → is_Some (_cells board !! (r, c))) →
  draw_keys board (acc, r, s) (c ← cs; [(r, c)])
  = Ok (acc, r, foldl (λ s c, s +:+ "|" +:+ render_at board (r, c)) s cs).
Proof.
  unfold draw_keys. induction cs as [|c cs IH]; intros acc s Hall; [done|].
  rewrite bind_cons. cbn [app fmap list_fmap draw_loop draw_cell foldl].
  rewrite decide_False by (intros H; by apply H).
  destruct (Hall c) as [a_cell Hc]; [apply list_elem_of_here|].
  unfold dict_get, render_at. rewrite Hc. simpl.
  apply IH. intros c' Hc'. apply Hall. by apply list_elem_of_further.
Qed.

Lemma draw_keys_new_row board r c cs acc cur s :
  cur ≠ r →
  (∀ c', c' ∈ c :: cs → is_Some (_cells board !! (r, c'))) →
  draw_keys board (acc, cur, s) (c' ← c :: cs; [(r, c')])
  = Ok (acc ++ [s +:+ "|"], r,
        foldl (λ s c, s +:+ "|" +:+ render_at board (r, c)) "" (c :: cs)).
Proof.
  intros Hne Hall. rewrite bind_cons.
  change ([(r, c)] ++ (c' ← cs; [(r, c')])) with ((r, c) :: (c' ← cs; [(r, c')])).
  change ((r, c) :: (c' ← cs; [(r, c')])) with ([(r, c)] ++ (c' ← cs; [(r, c')])).
  rewrite draw_keys_app.
  assert (draw_keys board (acc, cur, s) [(r, c)]
          = Ok (acc ++ [s +:+ "|"], r, "|" +:+ render_at board (r, c))) as ->.
  { unfold draw_keys. cbn [fmap list_fmap draw_loop draw_cell].
    rewrite decide_True by done.
    destruct (Hall c) as [a_cell Hc]; [apply list_elem_of_here|].
    unfold dict_get, render_at. by rewrite Hc. }
  simpl. rewrite draw_keys_same_row; [done|].
  intros c' Hc'. apply Hall. by apply list_elem_of_further.
Qed.

Lemma draw_keys_rows board c cs rs : ∀ acc cur s,
  StronglySorted Z.lt rs → Forall (λ r, cur < r) rs →
  (∀ r c', r ∈ rs → c' ∈ c :: cs → is_Some (_cells board !! (r, c'))) →
  ∃ acc' cur' s',
    draw_keys board (acc, cur, s) (r ← rs; c' ← c :: cs; [(r, c')])
    = Ok (acc', cur', s') ∧
    acc' ++ [s' +:+ "|"]
    = acc ++ [s +:+ "|"]
      ++ ((λ r, foldl (λ s c, s +:+ "|" +:+ render_at board (r, c)) "" (c :: cs)
                +:+ "|") <$> rs).
Proof.
  induction rs as [|r rs IH]; intros acc cur s Hs Hlt Hall.
  - by exists acc, cur, s.
  - apply StronglySorted_inv in Hs as [Hs Hr]. apply Forall_cons in Hlt as [Hcur Hlt].
    rewrite bind_cons, draw_keys_app.
    rewrite draw_keys_new_row; [|lia|].
    2:{ intros c' Hc'. apply Hall; [apply list_elem_of_here | done]. }
    simpl.
    destruct (IH (acc ++ [s +:+ "|"]) r
                (foldl (λ s c, s +:+ "|" +:+ render_at board (r, c)) "" (c :: cs)))
      as (acc' & cur' & s' & E & Hfin); [done | done | |].
    { intros r' c' Hr' Hc'. apply Hall; [by apply list_elem_of_further | done]. }
    exists acc', cur', s'. split; [done|]. rewrite Hfin. simpl.
    by rewrite <- app_assoc.
Qed.

Lemma bind_nil_inner {A B : Type} (l : list A) : l ≫= (λ _, @nil B) = [].
Proof. induction l as [|x l IH]; [done|]. by rewrite bind_cons, IH. Qed.

Lemma draw_lines_spec board :
  board_ok board →
  (0 < rows board → 0 < columns board →
   draw_lines board = Ok (row_text board <$> range (rows board))) ∧
  (rows board ≤ 0 ∨ columns board ≤ 0 → draw_lines board = Ok ["|"]).
Proof.
  intros Hok.
  destruct (yield_cells_spec board (grid board)) as (triples & E & Hkeys & _).
  { intros key Hk. by apply Hok, elem_of_grid. }
  unfold draw_lines, Board___iter__. fold (grid board). rewrite E. simpl.
  rewrite draw_loop_keys, Hkeys. unfold grid, range. split.
  - intros Hr Hc.
    assert (row_text board <$> seqZ 0 (rows board)
            = (λ r, foldl (λ s c, s +:+ "|" +:+ render_at board (r, c)) ""
                      (0 :: seqZ (Z.succ 0) (Z.pred (columns board))) +:+ "|")
              <$> (0 :: seqZ (Z.succ 0) (Z.pred (rows board)))) as ->.
    { rewrite <- !seqZ_cons by done. done. }
    rewrite (seqZ_cons 0 (rows board)) by done.
    rewrite (seqZ_cons 0 (columns board)) by done.
    set (rs := seqZ (Z.succ 0) (Z.pred (rows board))).
    set (cs := seqZ (Z.succ 0) (Z.pred (columns board))).
    assert (∀ r c, r ∈ 0 :: rs → c ∈ 0 :: cs → is_Some (_cells board !! (r, c)))
      as Hall.
    { intros r c Hr' Hc'. apply Hok. unfold rs, cs in *.
      rewrite <- seqZ_cons in Hr', Hc' by done.
      apply elem_of_seqZ in Hr'. apply elem_of_seqZ in Hc'.
      unfold in_bounds. simpl. lia. }
    rewrite bind_cons, draw_keys_app, draw_keys_same_row
      by (intros c Hc'; apply Hall; [apply list_elem_of_here | done]).
    rewrite bind_Ok.
    destruct (draw_keys_rows board 0 cs rs [] 0
                (foldl (λ s c, s +:+ "|" +:+ render_at board (0, c)) "" (0 :: cs)))
      as (acc' & cur' & s' & -> & Hfin).
    + apply StronglySorted_seqZ.
    + apply Forall_forall. intros r Hr'. apply elem_of_seqZ in Hr'. lia.
    + intros r c Hr' Hc'. apply Hall; [by apply list_elem_of_further | done].
    + rewrite bind_Ok. by rewrite Hfin.
  - intros Hz.
    assert ((row ← seqZ 0 (rows board); col ← seqZ 0 (columns board); [(row, col)])
            = []) as ->; [|done].
    destruct Hz as [Hr|Hc].
    + assert (seqZ 0 (rows board) = []) as ->; [|done].
      apply length_zero_iff_nil. rewrite length_seqZ. lia.
    + assert (seqZ 0 (columns board) = []) as ->; [|apply bind_nil_inner].
      apply length_zero_iff_nil. rewrite length_seqZ. lia.
Qed.

(** X12. The drawing of a board with at least one row and one column has
    one line per row, in order; the line of a row is a bar before what each
    of its cells renders, columns ascending, and a closing bar.  A board
    with no row or no column is drawn as the single line of one bar.  The
    printed text is the lines, each followed by a newline. *)
Theorem X12_drawing_is_row_by_row board :
  board_ok board →
  (0 < rows board → 0 < columns board →
   draw_lines board = Ok (row_text board <$> range (rows board)) ∧
   BoardDrawer_draw board
   = Ok (String.concat newline (row_text board <$> range (rows board))
         +:+ newline)) ∧
  (rows board ≤ 0 ∨ columns board ≤ 0 →
   draw_lines board = Ok ["|"] ∧
   BoardDrawer_draw board = Ok ("|" +:+ newline)).
Proof.
  intros Hok. destruct (draw_lines_spec board Hok) as [Hfull Hempty]. split.
  - intros Hr Hc. unfold BoardDrawer_draw. by rewrite Hfull.
  - intros Hz. unfold BoardDrawer_draw. by rewrite Hempty.
Qed.

Lemma string_length_app s1 s2 :
  String.length (s1 +:+ s2) = (String.length s1 + String.length s2)%nat.
Proof. induction s1 as [|a s1 IH]; [done|]. simpl. by rewrite IH. Qed.

Lemma row_text_length board row :
  (∀ col, 0 ≤ col < columns board →
          String.length (render_at board (row, col)) = 1%nat) →
  String.length (row_text board row) = (2 * Z.to_nat (columns board) + 1)%nat.
Proof.
  intros Hw. unfold row_text, range. rewrite string_length_app.
  rewrite <- (length_seqZ 0 (columns board)).
  assert (∀ cs s, (∀ col, col ∈ cs → 0 ≤ col < columns board) →
            String.length
              (foldl (λ s col, s +:+ "|" +:+ render_at board (row, col)) s cs)
            = (String.length s + 2 * length cs)%nat) as Hfold.
  { induction cs as [|c cs IH]; intros s Hcs; [simpl; lia|].
    cbn [foldl]. rewrite IH by (intros col Hcol; apply Hcs; by apply list_elem_of_further).
    rewrite !string_length_app, Hw by (apply Hcs, list_elem_of_here).
    simpl. lia. }
  rewrite Hfold; [simpl; lia|].
  intros col Hcol. apply elem_of_seqZ in Hcol. lia.
Qed.

Lemma cell_render_width rows0 columns0 bombs0 bomb_placer self ops key a_cell :
  Board___init__ rows0 columns0 bombs0 bomb_placer = Ok self →
  in_bounds (run_ops self ops) key →
  _cells (run_ops self ops) !! key = Some a_cell →
  String.length (Cell_render a_cell) = 1%nat.
Proof.
  intros Hinit Hin Hc. unfold Cell_render, ClickState_render.
  destruct (_clicked a_cell); [|by destruct (_flag a_cell)].
  unfold get_content. destruct (cell_class a_cell) as [n| |] eqn:Hk; try done.
  destruct (run_ops_counters_ok _ _ _ _ _ ops Hinit key Hin) as [_ Hplain].
  destruct (Hplain n) as [-> _].
  { unfold class_at. rewrite Hc. simpl. by rewrite Hk. }
  pose proof (bombs_around_bounds (run_ops self ops) key).
  apply str_digit_length. lia.
Qed.

(** X13. In every state reached from a freshly built board with at least one
    row and one column, the drawing is a rectangle: [rows] lines of
    [2 * columns + 1] characters each. *)
Theorem X13_drawing_is_a_rectangle
    rows0 columns0 bombs0 bomb_placer self ops :
  Board___init__ rows0 columns0 bombs0 bomb_placer = Ok self →
  0 < rows0 → 0 < columns0 →
  ∃ lines,
    draw_lines (run_ops self ops) = Ok lines ∧
    length lines = Z.to_nat rows0 ∧
    ∀ line, line ∈ lines →
            String.length line = (2 * Z.to_nat columns0 + 1)%nat.
Proof.
  intros Hinit Hr Hc.
  assert (board_ok (run_ops self ops)) as Hok
    by (apply run_ops_board_ok; by eapply init_ok).
  destruct (run_ops_same_layout self ops (init_ok _ _ _ _ _ Hinit))
    as (Hrows & Hcols & _).
  destruct (Board_init_spec _ _ _ _ _ Hinit) as (ps & _ & Hr0 & Hc0 & _).
  rewrite Hr0 in Hrows. rewrite Hc0 in Hcols.
  destruct (draw_lines_spec _ Hok) as [Hfull _].
  eexists. split; [apply Hfull; lia|]. split.
  - unfold range. by rewrite length_fmap, length_seqZ, Hrows.
  - intros line (row & -> & Hrow)%list_elem_of_fmap.
    unfold range in Hrow. apply elem_of_seqZ in Hrow.
    rewrite row_text_length; [by rewrite Hcols|].
    intros col Hcol.
    assert (in_bounds (run_ops self ops) (row, col)) as Hin
      by (unfold in_bounds; simpl; lia).
    destruct (Hok _ Hin) as [a_cell Hcell]. unfold render_at. rewrite Hcell.
    by eapply cell_render_width.
Qed.

(** *** A board without bombs *)

Lemma walk_reach self n : ∀ p q,
  (∀ key, in_bounds self key → class_at self key = Some EmptyPlainCell) →
  in_bounds self p → in_bounds self q →
  Z.abs (q.1 - p.1) + Z.abs (q.2 - p.2) ≤ Z.of_nat n →
  reach self p q.
Proof.
  induction n as [|n IH]; intros [r c] [r' c'] Hall Hp Hq Hd;
    unfold in_bounds in *; simpl in *.
  - assert (r' = r ∧ c' = c) as [-> ->] by lia. apply reach_here.
  - destruct (decide ((r, c) = (r', c'))) as [[= -> ->]|Hne]; [apply reach_here|].
    apply (reach_next _ (r, c) (r + Z.sgn (r' - r), c + Z.sgn (c' - c)) (r', c')).
    + by apply Hall.
    + unfold in_bounds. simpl. lia.
    + unfold adjacent. simpl. split; [|lia].
      intros [= H1 H2]. apply Hne. f_equal; lia.
    + apply IH; [done | unfold in_bounds; simpl; lia | done |].
      simpl. assert (r' ≠ r ∨ c' ≠ c) by (destruct (decide (r' = r)); [right|left]; congruence).
      lia.
Qed.

Lemma cascade_covers_reach self p b log :
  (∀ q, reach self p q → hidden self q ∧ unflagged self q) →
  cascade_ok self [p] b log →
  ∀ q, reach self p q → q ∈ log.
Proof.
  intros Hfresh P. pose proof (co_from _ _ _ _ P) as F.
  assert (∀ q, q ∈ log → reach self p q) as Hsound.
  { intros q Hq.
    by destruct (co_reach _ _ _ _ P q Hq) as (x & ->%list_elem_of_singleton & Hr). }
  assert (p ∈ log) as Hroot.
  { destruct (Hfresh _ (reach_here self p)) as [Hh Hf].
    apply (cf_newly_revealed _ _ _ F); [done|].
    apply (co_roots _ _ _ _ P); [apply list_elem_of_here | done]. }
  assert (∀ x q, reach self x q → x ∈ log → q ∈ log) as Hstep.
  { intros x q Hr. induction Hr as [|x y q Hx Hy Hxy _ IH]; [done|].
    intros Hxl. apply IH.
    assert (reach self p y) as Hry
      by (eapply reach_snoc; [by apply Hsound | done..]).
    destruct (Hfresh _ Hry) as [Hh Hf].
    apply (cf_newly_revealed _ _ _ F); [done|].
    by apply (co_closed _ _ _ _ P x y). }
  intros q Hr. by apply (Hstep _ _ Hr).
Qed.

(** X14. On a freshly built board for which the placer returned no bomb, one
    click on any cell of the grid clicks every cell of the grid, each once:
    the whole board is revealed and no cell is left unclicked. *)
Theorem X14_one_click_clears_a_bombless_board
    rows0 columns0 bombs0 bomb_placer self row column :
  Board___init__ rows0 columns0 bombs0 bomb_placer = Ok self →
  get_bomb_positions bomb_placer rows0 columns0 bombs0 = Ok [] →
  in_bounds self (row, column) →
  ∃ self' log,
    Board_click self row column = Ok (self', log) ∧
    log ≡ₚ grid self ∧
    (∀ q, in_bounds self q → revealed self' q) ∧
    hidden_count self' = 0%nat.
Proof.
  intros Hinit Hplaced Hin.
  pose proof (init_ok _ _ _ _ _ Hinit) as Hok.
  assert (∀ key, in_bounds self key → class_at self key = Some EmptyPlainCell)
    as Hall.
  { intros key Hk. unfold class_at.
    rewrite (init_cells _ _ _ _ _ _ Hinit Hplaced).
    rewrite decide_False by apply not_elem_of_nil. rewrite decide_True by done.
    simpl. f_equal.
    assert (filter (λ x, x ∈ []) (_get_neighbors self key.1 key.2) = []) as ->;
      [|done].
    induction (_get_neighbors self key.1 key.2) as [|x l IH]; [done|].
    rewrite filter_cons_False by apply not_elem_of_nil. done. }
  destruct (Board_click_spec self row column Hok Hin) as (b & log & E & P).
  pose proof (co_from _ _ _ _ P) as F.
  assert (∀ q, q ∈ log ↔ in_bounds self q) as Hlog.
  { intros q. split.
    - intros Hq. by destruct (co_fresh _ _ _ _ P q Hq) as (? & _).
    - intros Hq. apply (cascade_covers_reach self (row, column) b log); [|done|].
      + intros x Hx. exact (fresh_region_hidden _ _ _ _ _ _ _ Hinit Hin Hx).
      + apply (walk_reach self
                 (Z.to_nat (Z.abs (q.1 - row) + Z.abs (q.2 - column))));
          [done..|]. simpl. lia. }
  assert (∀ q, in_bounds self q → revealed b q) as Hrev.
  { intros q Hq. apply (cf_log_revealed _ _ _ F); [by apply Hlog | by apply Hok]. }
  exists b, log. split; [done|]. split; [|split; [done|]].
  - apply NoDup_Permutation; [apply P | apply NoDup_grid|].
    intros q. by rewrite Hlog, elem_of_grid.
  - unfold hidden_count. apply map_size_empty_iff, map_empty.
    intros key. apply map_lookup_filter_None. right. intros c Hc Hu.
    simpl in Hu.
    assert (in_bounds self key) as Hk.
    { destruct (decide (in_bounds self key)) as [|Hout]; [done|].
      rewrite (cf_cells _ _ _ F), decide_False in Hc by (by rewrite Hlog).
      rewrite (init_cells _ _ _ _ _ _ Hinit Hplaced) in Hc.
      rewrite decide_False in Hc by apply not_elem_of_nil.
      by rewrite decide_False in Hc. }
    specialize (Hrev key Hk). unfold revealed in Hrev. rewrite Hc in Hrev.
    simpl in Hrev. congruence.
Qed.

End Properties.

(** ** Examples *)

Lemma insertion_order_perm : ∀ l, set_iter (SetIter := insertion_order) l ≡ₚ l.
Proof. done. Qed.

Lemma example_board_init :
  Board___init__ (order := insertion_order) 3 3 1 (FixedBombPlacer [(0, 0)])
  = Ok example_board.
Proof. vm_compute. reflexivity. Qed.

Lemma example_board_ok : board_ok example_board.
Proof. exact (init_ok _ _ _ _ _ example_board_init). Qed.

Lemma flagged_board_ok : board_ok flagged_board.
Proof.
  apply (step_board_ok insertion_order_perm).
  by apply (init_ok (order := insertion_order) 1 1 0 (FixedBombPlacer [])).
Qed.

(** The cell at [(1, 1)] of the example board shows [1]. *)
Lemma C1_witness :
  ∃ a_cell,
    _cells example_board !! (1, 1) = Some a_cell ∧
    _flag a_cell = NoFlag ∧ _clicked a_cell = UnclikedState ∧
    (bombs_around example_board (1, 1) = 0 →
     cell_class a_cell = EmptyPlainCell) ∧
    (bombs_around example_board (1, 1) ≠ 0 →
     cell_class a_cell = PlainCell (bombs_around example_board (1, 1))) ∧
    get_content a_cell = str (bombs_around example_board (1, 1)).
Proof.
  apply (C1_counter_is_adjacent_bombs insertion_order_perm
           3 3 1 (FixedBombPlacer [(0, 0)]) example_board [(0, 0)] 1 1).
  - vm_compute. reflexivity.
  - reflexivity.
  - lia.
  - lia.
  - rewrite list_elem_of_singleton. discriminate.
Defined.

Lemma C2_witness :
  ∃ b1 b2 b3 log,
    Board_put_flag example_board 1 1 = Ok b1 ∧
    hidden b1 (1, 1) ∧ flagged b1 (1, 1) ∧
    Board_click (order := insertion_order) b1 1 1 = Ok (b1, []) ∧
    Board_remove_flag b1 1 1 = Ok b2 ∧
    Board_click (order := insertion_order) b2 1 1 = Ok (b3, log) ∧
    revealed b3 (1, 1) ∧ (1, 1) ∈ log.
Proof.
  apply (C2_flag_guards_reveal insertion_order_perm
           example_board 1 1 (Cell___init__ (PlainCell 1))).
  - exact example_board_ok.
  - vm_compute. intuition discriminate.
  - vm_compute. reflexivity.
  - reflexivity.
Defined.

Lemma opened_board_ok : board_ok opened_board.
Proof. apply (step_board_ok insertion_order_perm), example_board_ok. Qed.

Lemma three_by_three_cases (self : Board) (P : Z * Z → Prop) :
  rows self = 3 → columns self = 3 →
  P (0, 0) → P (0, 1) → P (0, 2) → P (1, 0) → P (1, 1) → P (1, 2) →
  P (2, 0) → P (2, 1) → P (2, 2) →
  ∀ q, in_bounds self q → P q.
Proof.
  intros Hrows Hcols ????????? [r c] [Hr Hc]. simpl in Hr, Hc.
  rewrite Hrows in Hr. rewrite Hcols in Hc.
  assert (r = 0 ∨ r = 1 ∨ r = 2) as [-> | [-> | ->]] by lia;
    assert (c = 0 ∨ c = 1 ∨ c = 2) as [-> | [-> | ->]] by lia; done.
Qed.

Lemma opened_board_region_hidden q :
  in_region opened_board (2, 2) q → hidden opened_board q.
Proof.
  intros [Hr Hk]. revert Hk.
  apply (reach_in_bounds opened_board (2, 2)) in Hr;
    [|vm_compute; intuition discriminate].
  revert q Hr.
  apply (three_by_three_cases opened_board
           (λ q, class_at opened_board q = Some EmptyPlainCell →
                 hidden opened_board q)); vm_compute; congruence.
Qed.

Lemma opened_board_unflagged q :
  reach opened_board (2, 2) q → unflagged opened_board q.
Proof.
  intros Hr.
  apply (reach_in_bounds opened_board (2, 2)) in Hr;
    [|vm_compute; intuition discriminate].
  revert q Hr.
  apply (three_by_three_cases opened_board (unflagged opened_board));
    vm_compute; reflexivity.
Qed.

(** A click on the empty corner [(2, 2)] of the example board whose numbered
    centre [(1, 1)], a cell around the region of the corner, is clicked
    already. *)
Lemma C3_witness :
  revealed opened_board (1, 1) ∧ reach opened_board (2, 2) (1, 1) ∧
  ∃ self' log,
    Board_click (order := insertion_order) opened_board 2 2 = Ok (self', log) ∧
    NoDup log ∧
    (∀ q, q ∈ log ↔ reach opened_board (2, 2) q ∧ hidden opened_board q) ∧
    (∀ region, NoDup region →
       (∀ q, q ∈ region → in_region opened_board (2, 2) q) →
       (length region ≤ length log)%nat) ∧
    (∀ q, reach opened_board (2, 2) q → revealed self' q).
Proof.
  split; [vm_compute; reflexivity|]. split.
  { apply (reach_next _ (2, 2) (1, 1) (1, 1)); [vm_compute; reflexivity | | |].
    - vm_compute. intuition discriminate.
    - vm_compute. intuition discriminate.
    - apply reach_here. }
  destruct (C3_cascade_reveals_region insertion_order_perm opened_board 2 2)
    as (b & log & E & _ & Hnd & Hlog & _ & _ & Hlen & Hafter & _).
  - exact opened_board_ok.
  - vm_compute. intuition discriminate.
  - vm_compute. reflexivity.
  - exact opened_board_region_hidden.
  - exact opened_board_unflagged.
  - exists b, log. exact (conj E (conj Hnd (conj Hlog (conj Hlen Hafter)))).
Defined.

Lemma C4_witness :
  ∃ self' log,
    Board_click (order := insertion_order) example_board 2 2 = Ok (self', log) ∧
    (∀ depth, (hidden_count example_board < depth)%nat →
       click_at_depth (order := insertion_order) depth example_board 2 2
       = Ok (self', log)) ∧
    NoDup log ∧
    (∀ key, key ∈ log ↔ hidden example_board key ∧ revealed self' key) ∧
    (length log ≤ hidden_count example_board)%nat ∧
    (∀ r c, in_bounds example_board (r, c) → revealed example_board (r, c) →
       click_at_depth (order := insertion_order) 1 example_board r c
       = Ok (example_board, [])).
Proof.
  apply (C4_cascade_terminates insertion_order_perm example_board 2 2).
  - exact example_board_ok.
  - vm_compute. intuition discriminate.
Defined.

Lemma C5_witness :
  ∃ self' log,
    Board_click (order := insertion_order) example_board 2 2 = Ok (self', log) ∧
    Board_click (order := insertion_order) self' 2 2 = Ok (self', []) ∧
    step (order := insertion_order)
      (step (order := insertion_order) example_board (Reveal 2 2)) (Reveal 2 2)
    = step (order := insertion_order) example_board (Reveal 2 2) ∧
    Board___iter__
      (step (order := insertion_order)
         (step (order := insertion_order) example_board (Reveal 2 2)) (Reveal 2 2))
    = Board___iter__ (step (order := insertion_order) example_board (Reveal 2 2)) ∧
    ∀ key,
      Cell_render
        <$> _cells
              (step (order := insertion_order)
                 (step (order := insertion_order) example_board (Reveal 2 2))
                 (Reveal 2 2)) !! key
      = Cell_render
        <$> _cells (step (order := insertion_order) example_board (Reveal 2 2))
              !! key.
Proof.
  apply (C5_reveal_idempotent insertion_order_perm example_board 2 2).
  - exact example_board_ok.
  - vm_compute. intuition discriminate.
Defined.

(** Rows [-1] and [7] and column [3] on the example board. *)
Lemma C6_witness :
  Board_click (order := insertion_order) example_board (-1) 0
  = Raise (InvalidCellException "Row -1 is not in range [0, 3)") ∧
  Board_click (order := insertion_order) example_board 7 0
  = Raise (InvalidCellException "Row 7 is not in range [0, 3)") ∧
  Board_put_flag example_board 0 3
  = Raise (InvalidCellException "Column 3 is not in range [0, 3)") ∧
  ∃ board, Board_remove_flag example_board 0 0 = Ok board.
Proof.
  destruct (C6_invalid_cell_only_out_of_range insertion_order_perm
              example_board (-1) 0 example_board_ok) as (Hrow & _).
  destruct (C6_invalid_cell_only_out_of_range insertion_order_perm
              example_board 7 0 example_board_ok) as (Hrow' & _).
  destruct (C6_invalid_cell_only_out_of_range insertion_order_perm
              example_board 0 3 example_board_ok) as (_ & Hcol & _).
  destruct (C6_invalid_cell_only_out_of_range insertion_order_perm
              example_board 0 0 example_board_ok) as (_ & _ & Hin & _).
  split; [|split; [|split]].
  - apply Hrow. vm_compute. intuition discriminate.
  - apply Hrow'. vm_compute. intuition discriminate.
  - apply Hcol; vm_compute; intuition discriminate.
  - apply Hin; vm_compute; intuition discriminate.
Defined.

Lemma C7_witness :
  bomb_cells_count
    (run_ops (order := insertion_order) example_board
       [Reveal 2 2; PutFlag 0 0; Reveal 0 0; RemoveFlag 0 0]) = 1 ∧
  bombs_on_grid
    (run_ops (order := insertion_order) example_board
       [Reveal 2 2; PutFlag 0 0; Reveal 0 0; RemoveFlag 0 0]) = 1 ∧
  bombs
    (run_ops (order := insertion_order) example_board
       [Reveal 2 2; PutFlag 0 0; Reveal 0 0; RemoveFlag 0 0]) = 1.
Proof.
  apply (proj1 (C7_bomb_count_exact insertion_order_perm)
           3 3 1 (FixedBombPlacer [(0, 0)]) example_board [(0, 0)]).
  - vm_compute. reflexivity.
  - reflexivity.
  - apply NoDup_singleton.
  - intros p Hp. apply list_elem_of_singleton in Hp. subst p. simpl. lia.
  - reflexivity.
Defined.

Lemma C8_witness :
  revealed
    (run_ops (order := insertion_order) example_board
       ([Reveal 2 2] ++ [PutFlag 2 2; RemoveFlag 2 2; Reveal 0 0])) (2, 2) ∧
  ¬ hidden
    (run_ops (order := insertion_order) example_board
       ([Reveal 2 2] ++ [PutFlag 2 2; RemoveFlag 2 2; Reveal 0 0])) (2, 2).
Proof.
  apply (C8_revealed_is_monotonic insertion_order_perm example_board).
  - exact example_board_ok.
  - vm_compute. reflexivity.
Defined.

Lemma C9_witness :
  ∃ triples,
    Board___iter__ example_board = Ok triples ∧
    triples.*1 = grid example_board ∧
    (∀ row col a_cell,
       (row, col, a_cell) ∈ triples →
       _cells example_board !! (row, col) = Some a_cell) ∧
    (∀ key, key ∈ grid example_board ↔ in_bounds example_board key) ∧
    StronglySorted row_major_lt (grid example_board) ∧
    Z.of_nat (length triples)
    = Z.max (rows example_board) 0 * Z.max (columns example_board) 0 ∧
    (0 ≤ rows example_board → 0 ≤ columns example_board →
     Z.of_nat (length triples) = rows example_board * columns example_board).
Proof. apply (C9_iteration_row_major example_board), example_board_ok. Defined.

(** After a flag, a suppressed click, the flag's removal and a click, the
    corner [(2, 2)] is clicked and carries no flag. *)
Lemma C10_witness :
  ∃ a_cell,
    _cells (run_ops (order := insertion_order) example_board
              [PutFlag 2 2; Reveal 2 2; RemoveFlag 2 2; Reveal 2 2; PutFlag 2 2])
      !! (2, 2) = Some a_cell ∧
    _clicked a_cell = ClickedState ∧ _flag a_cell = NoFlag.
Proof.
  exists {| cell_class := EmptyPlainCell; _flag := NoFlag;
            _clicked := ClickedState |}.
  split; [vm_compute; reflexivity|]. split; [reflexivity|].
  apply (C10_revealed_never_flagged insertion_order_perm
           3 3 1 (FixedBombPlacer [(0, 0)]) example_board
           [PutFlag 2 2; Reveal 2 2; RemoveFlag 2 2; Reveal 2 2; PutFlag 2 2]
           (2, 2)).
  - vm_compute. reflexivity.
  - vm_compute. reflexivity.
  - reflexivity.
Defined.

(** ** Where the specification and the program part *)

(** C3 as stated fails in three ways.

    A flag on the clicked cell.  On [flagged_board] the cell [(0, 0)] is an
    [EmptyPlainCell] whose region is itself, of size 1; a click is
    suppressed by the flag and no cell goes from unclicked to clicked.

    A clicked cell inside the region.  On [split_board] no cell carries a
    flag and the cell [(0, 0)] is unclicked; its region is the whole row,
    of size 3.  A click on it meets the clicked middle cell, which returns
    at once: [(0, 0)] alone goes from unclicked to clicked.

    A flag on the border.  On [guarded_board] every cell is unclicked and
    the numbered centre [(1, 1)] is adjacent to the empty corner [(2, 2)];
    after a click on the corner the centre is still unclicked. *)
Lemma C3_counterexample :
  (board_ok flagged_board ∧
   in_bounds flagged_board (0, 0) ∧
   class_at flagged_board (0, 0) = Some EmptyPlainCell ∧
   (∀ q, q ∈ [(0, 0)] ↔ in_region flagged_board (0, 0) q) ∧
   Board_click (order := insertion_order) flagged_board 0 0
   = Ok (flagged_board, []) ∧
   ¬ ∃ self' log,
       Board_click (order := insertion_order) flagged_board 0 0
       = Ok (self', log) ∧
       (length [(0, 0)] ≤ length log)%nat) ∧
  (board_ok split_board ∧
   in_bounds split_board (0, 0) ∧
   class_at split_board (0, 0) = Some EmptyPlainCell ∧
   hidden split_board (0, 0) ∧
   (∀ q, in_bounds split_board q → unflagged split_board q) ∧
   (∀ q, q ∈ [(0, 0); (0, 1); (0, 2)] ↔ in_region split_board (0, 0) q) ∧
   (∃ self', Board_click (order := insertion_order) split_board 0 0
             = Ok (self', [(0, 0)])) ∧
   ¬ ∃ self' log,
       Board_click (order := insertion_order) split_board 0 0
       = Ok (self', log) ∧
       (length [(0, 0); (0, 1); (0, 2)] ≤ length log)%nat) ∧
  (board_ok guarded_board ∧
   in_region guarded_board (2, 2) (2, 2) ∧
   in_bounds guarded_board (1, 1) ∧ adjacent (2, 2) (1, 1) ∧
   class_at guarded_board (1, 1) = Some (PlainCell 1) ∧
   (∀ q, in_bounds guarded_board q → hidden guarded_board q) ∧
   ∃ self' log,
     Board_click (order := insertion_order) guarded_board 2 2
     = Ok (self', log) ∧
     ¬ revealed self' (1, 1)).
Proof.
  split; [|split].
  - split; [exact flagged_board_ok|].
    split; [vm_compute; intuition discriminate|].
    split; [vm_compute; reflexivity|].
    split; [|split].
    + intros q. rewrite list_elem_of_singleton. split.
      * intros ->. split; [apply reach_here | vm_compute; reflexivity].
      * intros [Hr _]. inversion Hr as [|? x ? _ Hx Ha _]; subst; [done|].
        exfalso. destruct Hx as [Hx1 Hx2], Ha as (Hne & _ & _).
        apply Hne. destruct x as [r c].
        change (0 ≤ r < 1) in Hx1. change (0 ≤ c < 1) in Hx2.
        f_equal; lia.
    + vm_compute. reflexivity.
    + intros (b & log & E & Hlen).
      assert (Board_click (order := insertion_order) flagged_board 0 0
              = Ok (flagged_board, [])) as E0 by (vm_compute; reflexivity).
      rewrite E0 in E. injection E as <- <-. simpl in Hlen. lia.
  - assert (∃ b0, Board_click (order := insertion_order) split_board 0 0
                  = Ok (b0, [(0, 0)])) as [b0 E0]
      by (eexists; vm_compute; reflexivity).
    assert (∀ P : Z * Z → Prop, P (0, 0) → P (0, 1) → P (0, 2) →
              ∀ q, in_bounds split_board q → P q) as Hcases.
    { intros P ??? [r c] [Hr Hc].
      change (0 ≤ r < 1) in Hr. change (0 ≤ c < 3) in Hc.
      assert (r = 0) as -> by lia.
      assert (c = 0 ∨ c = 1 ∨ c = 2) as [-> | [-> | ->]] by lia; done. }
    split.
    { apply (run_ops_board_ok insertion_order_perm).
      by apply (init_ok (order := insertion_order) 1 3 0 (FixedBombPlacer [])). }
    split; [vm_compute; intuition discriminate|].
    split; [vm_compute; reflexivity|].
    split; [vm_compute; reflexivity|].
    split; [apply (Hcases (unflagged split_board)); vm_compute; reflexivity|].
    split; [|split].
    + intros q. split.
      * assert (reach split_board (0, 0) (0, 1)) as H1.
        { apply (reach_next _ (0, 0) (0, 1) (0, 1));
            [vm_compute; reflexivity | vm_compute; intuition discriminate
            | vm_compute; intuition discriminate | apply reach_here]. }
        assert (reach split_board (0, 0) (0, 2)) as H2.
        { apply (reach_snoc _ (0, 0) (0, 1) (0, 2));
            [done | vm_compute; reflexivity | vm_compute; intuition discriminate
            | vm_compute; intuition discriminate]. }
        rewrite ?elem_of_cons.
        intros [-> | [-> | [-> | []%not_elem_of_nil]]].
        -- split; [apply reach_here | vm_compute; reflexivity].
        -- split; [exact H1 | vm_compute; reflexivity].
        -- split; [exact H2 | vm_compute; reflexivity].
      * intros [Hr _].
        apply (reach_in_bounds split_board (0, 0)) in Hr;
          [|vm_compute; intuition discriminate].
        revert q Hr.
        apply (Hcases (λ q, q ∈ [(0, 0); (0, 1); (0, 2)]));
          rewrite ?elem_of_cons; tauto.
    + by exists b0.
    + intros (b & log & E & Hlen).
      rewrite E0 in E. injection E as <- <-. simpl in Hlen. lia.
  - split; [apply (step_board_ok insertion_order_perm), example_board_ok|].
    split; [split; [apply reach_here | vm_compute; reflexivity]|].
    split; [vm_compute; intuition discriminate|].
    split; [vm_compute; intuition discriminate|].
    split; [vm_compute; reflexivity|].
    split.
    + apply (three_by_three_cases guarded_board (hidden guarded_board));
        vm_compute; reflexivity.
    + eexists _, _. split; [vm_compute; reflexivity|].
      vm_compute. discriminate.
Qed.

(** C9 as stated fails for negative dimensions.  [Board(-1, -1, 0)] is built
    without error by the random placer; iterating it yields nothing, while
    [rows * columns] is 1. *)
Lemma C9_counterexample :
  Board___init__ (order := insertion_order) (-1) (-1) 0
    (RandomBombPlacerStrategy (order := insertion_order) [])
  = Ok negative_board ∧
  Board___iter__ negative_board = Ok [] ∧
  Z.of_nat (length ([] : list (Z * Z * Cell)))
  ≠ rows negative_board * columns negative_board.
Proof.
  split; [vm_compute; reflexivity|]. split; [vm_compute; reflexivity|].
  vm_compute. discriminate.
Qed.

(** ** Examples of the further properties *)

Lemma clear_board_init :
  Board___init__ (order := insertion_order) 2 2 0 (FixedBombPlacer [])
  = Ok clear_board.
Proof. vm_compute. reflexivity. Qed.

(** The centre of the example board has eight neighbours, its corner at
    most eight. *)
Lemma X1_witness :
  length (_get_neighbors (order := insertion_order) example_board 1 1) = 8%nat ∧
  (length (_get_neighbors (order := insertion_order) example_board 0 0) ≤ 8)%nat ∧
  (1, 1) ∈ _get_neighbors (order := insertion_order) example_board 0 0.
Proof.
  destruct (X1_neighbors_are_the_in_bounds_eight insertion_order_perm
              example_board 1 1) as (_ & _ & _ & _ & Height & Hsym).
  destruct (X1_neighbors_are_the_in_bounds_eight insertion_order_perm
              example_board 0 0) as (_ & _ & _ & Hle & _).
  split; [|split; [exact Hle|]].
  - apply Height; vm_compute; intuition discriminate.
  - apply (Hsym (0, 0)).
    + vm_compute. intuition discriminate.
    + vm_compute. apply list_elem_of_here.
Defined.

Lemma X2_witness :
  (∀ key, is_Some (_cells example_board !! key)
          ↔ in_bounds example_board key ∨ key ∈ [(0, 0)]) ∧
  (∀ key, class_at example_board key = Some BombCell ↔ key ∈ [(0, 0)]) ∧
  (∀ key a_cell,
     _cells example_board !! key = Some a_cell →
     _flag a_cell = NoFlag ∧ _clicked a_cell = UnclikedState ∧
     Cell_render a_cell = " ") ∧
  rows example_board = 3 ∧ columns example_board = 3 ∧
  bombs example_board = 1 ∧ exploded_bomb example_board = None.
Proof.
  apply (X2_fresh_board_cells (order := insertion_order)
           3 3 1 (FixedBombPlacer [(0, 0)]) example_board [(0, 0)]).
  - vm_compute. reflexivity.
  - reflexivity.
Defined.

(** After a click on [(2, 2)] the cell at [(1, 1)] still carries 1, the
    number of bombs around it. *)
Lemma X3_witness :
  1 = bombs_around
        (run_ops (order := insertion_order) example_board [Reveal 2 2]) (1, 1) ∧
  1 ≤ 1 ≤ 8.
Proof.
  destruct (X3_counters_in_every_state insertion_order_perm
              3 3 1 (FixedBombPlacer [(0, 0)]) example_board [Reveal 2 2] (1, 1))
    as [Hplain _].
  - vm_compute. reflexivity.
  - vm_compute. intuition discriminate.
  - apply Hplain. vm_compute. reflexivity.
Defined.

Lemma X4_witness :
  String.length
    (Cell_render {| cell_class := PlainCell 1; _flag := NoFlag;
                    _clicked := ClickedState |}) = 1%nat.
Proof.
  apply (X4_render_is_one_character insertion_order_perm
           3 3 1 (FixedBombPlacer [(0, 0)]) example_board [Reveal 2 2] (1, 1)).
  - vm_compute. reflexivity.
  - vm_compute. intuition discriminate.
  - vm_compute. reflexivity.
Defined.

Lemma X5_witness :
  Board_remove_flag example_board 1 1 = Ok example_board ∧
  ∃ b1, Board_put_flag example_board 1 1 = Ok b1 ∧
        Board_put_flag b1 1 1 = Ok b1.
Proof.
  destruct (X5_flag_calls_without_effect example_board 1 1)
    as (_ & _ & Hrem & Hput & _).
  - exact example_board_ok.
  - vm_compute. intuition discriminate.
  - split; [|exact Hput]. apply Hrem. vm_compute. reflexivity.
Defined.

Lemma X6_witness :
  ∃ b1, Board_put_flag example_board 1 1 = Ok b1 ∧
        Board_remove_flag b1 1 1 = Ok example_board.
Proof.
  destruct (X6_flag_round_trip example_board 1 1)
    as [Hround _].
  - exact example_board_ok.
  - vm_compute. intuition discriminate.
  - apply Hround. vm_compute. reflexivity.
Defined.

Lemma X7_witness :
  ∃ self' log,
    Board_click (order := insertion_order) example_board 2 2 = Ok (self', log) ∧
    rows self' = rows example_board ∧ columns self' = columns example_board ∧
    bombs self' = bombs example_board ∧
    (∀ key, _flag <$> _cells self' !! key = _flag <$> _cells example_board !! key) ∧
    (∀ key, class_at self' key = class_at example_board key) ∧
    (∀ key, flagged example_board key →
            _cells self' !! key = _cells example_board !! key) ∧
    (∀ key, ¬ in_bounds example_board key →
            _cells self' !! key = _cells example_board !! key) ∧
    (hidden_count self' + length log = hidden_count example_board)%nat.
Proof.
  apply (X7_click_frame insertion_order_perm example_board 2 2).
  - exact example_board_ok.
  - vm_compute. intuition discriminate.
Defined.

(** With a flag on [(1, 1)], clicks around it and on it leave it hidden. *)
Lemma X8_witness :
  _cells (run_ops (order := insertion_order)
            (step (order := insertion_order) example_board (PutFlag 1 1))
            [Reveal 2 2; Reveal 1 1; Reveal 0 1]) !! (1, 1)
  = _cells (step (order := insertion_order) example_board (PutFlag 1 1)) !! (1, 1) ∧
  flagged (run_ops (order := insertion_order)
             (step (order := insertion_order) example_board (PutFlag 1 1))
             [Reveal 2 2; Reveal 1 1; Reveal 0 1]) (1, 1).
Proof.
  apply (X8_flag_protects_from_clicks insertion_order_perm).
  - apply (step_board_ok insertion_order_perm), example_board_ok.
  - repeat constructor.
  - vm_compute. reflexivity.
Defined.

Lemma X9_witness :
  ∃ self' log,
    Board_click (order := insertion_order)
      (run_ops (order := insertion_order) example_board []) 2 2
    = Ok (self', log) ∧
    (∀ q, q ∈ log →
          class_at (run_ops (order := insertion_order) example_board []) q
          ≠ Some BombCell) ∧
    (∀ q, class_at (run_ops (order := insertion_order) example_board []) q
          = Some BombCell →
          _cells self' !! q
          = _cells (run_ops (order := insertion_order) example_board []) !! q).
Proof.
  apply (X9_cascade_never_reveals_a_bomb insertion_order_perm
           3 3 1 (FixedBombPlacer [(0, 0)]) example_board [] 2 2).
  - vm_compute. reflexivity.
  - vm_compute. intuition discriminate.
  - vm_compute. discriminate.
Defined.

(** Also after a click on the bomb. *)
Lemma X10_witness :
  exploded_bomb (run_ops (order := insertion_order) example_board [Reveal 0 0])
  = None.
Proof.
  apply (X10_exploded_bomb_is_never_set insertion_order_perm
           3 3 1 (FixedBombPlacer [(0, 0)]) example_board [Reveal 0 0]).
  vm_compute. reflexivity.
Defined.

Lemma X11_witness :
  (∃ self,
     Board___init__ (order := insertion_order) 2 2 1
       (RandomBombPlacerStrategy (order := insertion_order) [3%nat]) = Ok self ∧
     bomb_cells_count self = 1 ∧ bombs_on_grid self = 1) ∧
  Board___init__ (order := insertion_order) 2 2 5
    (RandomBombPlacerStrategy (order := insertion_order) [3%nat])
  = Raise ValueError.
Proof.
  split.
  - apply (proj1 (X11_random_construction insertion_order_perm [3%nat] 2 2 1)). lia.
  - apply (proj2 (X11_random_construction insertion_order_perm [3%nat] 2 2 5)). lia.
Defined.

Lemma X12_witness :
  draw_lines example_board
  = Ok (row_text example_board <$> range (rows example_board)) ∧
  BoardDrawer_draw example_board
  = Ok (String.concat newline
          (row_text example_board <$> range (rows example_board))
        +:+ newline).
Proof.
  apply (proj1 (X12_drawing_is_row_by_row example_board example_board_ok));
    reflexivity.
Defined.

Lemma X13_witness :
  ∃ lines,
    draw_lines (run_ops (order := insertion_order) example_board
                  [Reveal 2 2; PutFlag 0 0]) = Ok lines ∧
    length lines = Z.to_nat 3 ∧
    ∀ line, line ∈ lines → String.length line = (2 * Z.to_nat 3 + 1)%nat.
Proof.
  apply (X13_drawing_is_a_rectangle insertion_order_perm
           3 3 1 (FixedBombPlacer [(0, 0)]) example_board).
  - vm_compute. reflexivity.
  - lia.
  - lia.
Defined.

Lemma X14_witness :
  ∃ self' log,
    Board_click (order := insertion_order) clear_board 0 1 = Ok (self', log) ∧
    log ≡ₚ grid clear_board ∧
    (∀ q, in_bounds clear_board q → revealed self' q) ∧
    hidden_count self' = 0%nat.
Proof.
  apply (X14_one_click_clears_a_bombless_board insertion_order_perm
           2 2 0 (FixedBombPlacer []) clear_board 0 1).
  - vm_compute. reflexivity.
  - reflexivity.
  - vm_compute. intuition discriminate.
Defined.
